(** * Git replication MVP: quorum, two-phase commit and the peer handler

  A shallow embedding of the TypeScript sources

  - [replication.ts]          (class [ReplicationCoordinator]),
  - [replication-handler.ts]  (class [ReplicationHandler], the version
                               that owns a [RepoStorage]),
  - [storage.ts]              (class [RepoStorage]),
  - [git-server.ts]           (class [GitServer]),

  followed by the properties of the replication protocol.

  Conventions.  A JSON object whose fields are strings (request bodies,
  [WriteData]) is a [gmap string string]; JavaScript's [Map] is a [gmap].
  Numbers that the code computes with are [Z].  Everything outside the
  repository (axios, uuid, the clock, Node's [fs] and [path],
  isomorphic-git) is an oracle or an interface that the definitions are
  parametrised by.  Every handler is modelled as one atomic step: the
  interleaving of two requests at an [await] is outside the model. *)

From Stdlib Require Import ZArith QArith Qround.
From stdpp Require Import base gmap strings list pretty.

Open Scope Z_scope.

#[local] Set Warnings "-clear-no-such-hyp,-register-all".

(** ** JavaScript values *)

Module Js.

(** A JSON object with string fields; a key that is absent reads as
    [undefined], i.e. [None]. *)
Abbreviation JsonObject := (gmap string string).

(** [!!v] for a field read off a JSON object: [undefined] and the empty
    string are falsy, every other string is truthy. *)
Definition truthy (v : option string) : bool :=
  match v with
  | Some s => negb (String.eqb s "")
  | None => false
  end.

(** Values that occur in response bodies. *)
Inductive JVal : Type :=
| JStr (s : string)
| JNum (n : Z)
| JBool (b : bool)
| JUndefined.

(** [value === undefined ? JUndefined : JStr value] *)
Definition of_option (v : option string) : JVal :=
  match v with Some s => JStr s | None => JUndefined end.

(** What [res.status(code).json(body)] sends. *)
Record Response : Type := mkResponse {
  statusCode : Z;
  json : list (string * JVal)
}.

(** The message of a thrown [Error]. *)
Definition Error : Type := string.

End Js.

Export Js.

(** ** The network, as the coordinator sees it *)

Module Net.

(** One [axios.post(url, body, { timeout })]. *)
Record Call : Type := mkCall {
  call_url : string;
  call_body : JsonObject
}.

#[export] Instance Call_eq_dec : EqDecision Call.
Proof. solve_decision. Defined.

(** What the coordinator changes in the world: the posts it has issued
    (oldest first) and the number of identifiers it has drawn. *)
Record World : Type := mkWorld {
  posts : list Call;
  drawn : nat
}.

(** What the world answers: the [n]-th identifier that [uuidv4()]
    returns, and whether the promise of a post settles as ['fulfilled']
    ([true]: a 2xx answer within the timeout) or as ['rejected'], given
    the posts issued before it. *)
Record Env : Type := mkEnv {
  uuid_at : nat → string;
  settles : list Call → Call → bool
}.

(** A computation that reads the environment and updates the world. *)
Definition IO (A : Type) : Type := Env → World → A * World.

#[export] Instance IO_ret : MRet IO := λ A a _ w, (a, w).
#[export] Instance IO_bind : MBind IO :=
  λ A B f m env w, let '(a, w') := m env w in f a env w'.

Definition uuidv4 : IO string :=
  λ env w, (uuid_at env (drawn w),
            {| posts := posts w; drawn := S (drawn w) |}).

(** [axios.post]: the call is issued, and its promise settles. *)
Definition axios_post (url : string) (body : JsonObject) : IO bool :=
  λ env w,
    let c := {| call_url := url; call_body := body |} in
    (settles env (posts w) c,
     {| posts := posts w ++ [c]; drawn := drawn w |}).

(** [await Promise.allSettled(promises)]: the promises were started in
    list order, and every one of them is settled, whatever its outcome. *)
Fixpoint allSettled (promises : list (IO bool)) : IO (list bool) :=
  match promises with
  | [] => mret []
  | p :: ps => r ← p; rs ← allSettled ps; mret (r :: rs)
  end.

(** [xs.filter((x, index) => f(x, index))], from index [i] on. *)
Fixpoint filter_index {A} (f : A → nat → bool) (i : nat) (xs : list A)
  : list A :=
  match xs with
  | [] => []
  | x :: xs' =>
      if f x i then x :: filter_index f (S i) xs'
      else filter_index f (S i) xs'
  end.

End Net.

Export Net.

(** ** replication.ts *)

Module Coordinator.

Record ReplicationResult : Type := mkResult {
  success : bool;
  peersConfirmed : Z;
  peersRequired : Z;
  error : option string
}.

Record ReplicationCoordinator : Type := mkCoordinator {
  serverId : string;
  peerUrls : list string
}.

Definition getQuorumSize (this : ReplicationCoordinator) : Z :=
  let totalServers := 1 + Z.of_nat (length (peerUrls this)) in
  if totalServers =? 2
  then 1
  else Qceiling (inject_Z totalServers / 2) - 1.

(** [{ transaction_id, coordinator_id, ...writeData }]: the spread comes
    last, so a key of [writeData] wins over the two fixed ones. *)
Definition prepareBody (this : ReplicationCoordinator)
    (transactionId : string) (writeData : JsonObject) : JsonObject :=
  writeData ∪ <["transaction_id" := transactionId]>
               (<["coordinator_id" := serverId this]> ∅).

Definition commitBody (this : ReplicationCoordinator)
    (transactionId : string) : JsonObject :=
  <["transaction_id" := transactionId]>
    (<["coordinator_id" := serverId this]> ∅).

Definition sendPrepare (this : ReplicationCoordinator) (peerUrl : string)
    (transactionId : string) (writeData : JsonObject) : IO bool :=
  axios_post (peerUrl +:+ "/replicate/prepare")
             (prepareBody this transactionId writeData).

Definition sendCommit (this : ReplicationCoordinator) (peerUrl : string)
    (transactionId : string) : IO bool :=
  axios_post (peerUrl +:+ "/replicate/commit")
             (commitBody this transactionId).

Definition replicateWrite (this : ReplicationCoordinator)
    (writeData : JsonObject) : IO ReplicationResult :=
  transactionId ← uuidv4;
  let quorumSize := getQuorumSize this in
  (* Phase 1: Prepare *)
  let preparePromises :=
    map (λ peerUrl, sendPrepare this peerUrl transactionId writeData)
        (peerUrls this) in
  prepareResults ← allSettled preparePromises;
  let successfulPrepares := filter (λ result, result = true) prepareResults in
  (* Check if we have quorum *)
  if Z.of_nat (length successfulPrepares) <? quorumSize then
    mret {| success := false;
            peersConfirmed := Z.of_nat (length successfulPrepares);
            peersRequired := quorumSize;
            error := Some ("Quorum not reached. Required: "
                           +:+ pretty quorumSize +:+ ", Got: "
                           +:+ pretty (Z.of_nat (length successfulPrepares))) |}
  else
    (* Phase 2: Commit, only to peers that prepared successfully *)
    let peersToCommit :=
      filter_index (λ _ index, bool_decide (prepareResults !! index = Some true))
                   0 (peerUrls this) in
    let commitPromises :=
      map (λ peerUrl, sendCommit this peerUrl transactionId) peersToCommit in
    _ ← allSettled commitPromises;
    mret {| success := true;
            peersConfirmed := Z.of_nat (length successfulPrepares);
            peersRequired := quorumSize;
            error := None |}.

End Coordinator.

Export Coordinator.

(** ** storage.ts *)

Module Storage.

(** Node's [fs] and [path] and isomorphic-git's [init], as far as
    [RepoStorage] uses them, over a type [FS] of file-system states.  An
    operation that rejects returns the error and the state it leaves. *)
Class NodeFs (FS : Type) : Type := {
  (** [await fs.access(p)] resolves *)
  fs_access : string → FS → bool;
  (** [await fs.mkdir(dir, { recursive: true })] *)
  fs_mkdir_recursive : string → FS → (Error + unit) * FS;
  (** [await git.init({ fs, dir, bare: true, defaultBranch: 'main' })] *)
  git_init_bare : string → FS → (Error + unit) * FS;
  (** [path.join(a, b)] *)
  path_join : string → string → string;
  (** [path.dirname(p)] *)
  path_dirname : string → string
}.

(** The one thing the properties below assume about these libraries: a
    directory that [git.init] has created can be accessed. *)
Class NodeFsLaws (FS : Type) `{NodeFs FS} : Prop := {
  access_git_init : ∀ (p : string) (d d' : FS),
    git_init_bare p d = (inr (), d') → fs_access p d' = true
}.

Record RepoStorage : Type := mkStorage {
  dataDir : string
}.

Section Methods.
Context {FS : Type} `{NodeFs FS}.

(** Convert "user/repo" to "data/user/repo.git" *)
Definition getRepoPath (this : RepoStorage) (repoId : string) : string :=
  path_join (dataDir this) (repoId +:+ ".git").

(** [try { await fs.access(repoPath); return true } catch { return false }] *)
Definition repoExists (this : RepoStorage) (repoId : string) (d : FS) : bool :=
  let repoPath := getRepoPath this repoId in
  fs_access repoPath d.

Definition createRepo (this : RepoStorage) (repoId : string) (d : FS)
  : (Error + unit) * FS :=
  if repoExists this repoId d then
    (inl "Repository already exists", d)
  else
    let repoPath := getRepoPath this repoId in
    match fs_mkdir_recursive (path_dirname repoPath) d with
    | (inl e, d1) => (inl e, d1)
    | (inr _, d1) =>
        (* Initialize bare Git repository *)
        git_init_bare repoPath d1
    end.

End Methods.

End Storage.

Export Storage.

(** ** replication-handler.ts *)

Module Handler.

Inductive Status : Type := prepared | committed | aborted.

#[export] Instance Status_eq_dec : EqDecision Status.
Proof. solve_decision. Defined.

Definition status_string (s : Status) : string :=
  match s with
  | prepared => "prepared"
  | committed => "committed"
  | aborted => "aborted"
  end.

Record Transaction : Type := mkTransaction {
  transaction_id : string;
  coordinator_id : string;
  repo_id : string;
  ref : option string;
  commit : option string;
  operation : option string;
  timestamp : string;
  status : Status
}.

(** [transaction.status = s] *)
Definition set_status (s : Status) (t : Transaction) : Transaction :=
  {| transaction_id := transaction_id t;
     coordinator_id := coordinator_id t;
     repo_id := repo_id t;
     ref := ref t;
     commit := commit t;
     operation := operation t;
     timestamp := timestamp t;
     status := s |}.

Record ReplicationHandler : Type := mkHandler {
  transactions : gmap string Transaction;
  serverId : string;
  storage : RepoStorage
}.

(** [this.transactions.set(key, value)] *)
Definition transactions_set (key : string) (value : Transaction)
    (this : ReplicationHandler) : ReplicationHandler :=
  {| transactions := <[key := value]> (transactions this);
     serverId := serverId this;
     storage := storage this |}.

(** [{ status, transaction_id, server_id: this.serverId }] *)
Definition accepted (this : ReplicationHandler) (s : Status)
    (transaction_id : string) : Response :=
  {| statusCode := 200;
     json := [("status", JStr (status_string s));
              ("transaction_id", JStr transaction_id);
              ("server_id", JStr (serverId this))] |}.

Definition missing_fields (names : string) : Response :=
  {| statusCode := 400;
     json := [("error", JStr ("Missing required fields: " +:+ names))] |}.

(** The two fields that [handleCommit] and [handleAbort] require, when
    neither [!transaction_id] nor [!coordinator_id] holds. *)
Definition required2 (body : JsonObject) : option (string * string) :=
  match body !! "transaction_id", body !! "coordinator_id" with
  | Some transaction_id, Some coordinator_id =>
      if negb (truthy (Some transaction_id))
         || negb (truthy (Some coordinator_id))
      then None
      else Some (transaction_id, coordinator_id)
  | _, _ => None
  end.

(** The three fields that [handlePrepare] requires, when none of
    [!transaction_id], [!coordinator_id], [!repo_id] holds. *)
Definition required3 (body : JsonObject) : option (string * string * string) :=
  match required2 body, body !! "repo_id" with
  | Some (transaction_id, coordinator_id), Some repo_id =>
      if negb (truthy (Some repo_id)) then None
      else Some (transaction_id, coordinator_id, repo_id)
  | _, _ => None
  end.

Section Methods.
Context {FS : Type} `{NodeFs FS}.

(** [now] is what [new Date().toISOString()] returns during the call. *)
Definition handlePrepare (this : ReplicationHandler) (now : string)
    (body : JsonObject) (d : FS) : Response * ReplicationHandler * FS :=
  let ref := body !! "ref" in
  let commit := body !! "commit" in
  let operation := body !! "operation" in
  (* Validate required fields *)
  match required3 body with
  | None =>
      (missing_fields "transaction_id, coordinator_id, repo_id", this, d)
  | Some (transaction_id, coordinator_id, repo_id) =>
      (* try: perform the actual operation (e.g., create repo) *)
      let '(outcome, d1) :=
        if bool_decide (operation = Some "create") then
          if negb (repoExists (storage this) repo_id d) then
            createRepo (storage this) repo_id d
          else (inr (), d)
        else (inr (), d) in
      match outcome with
      | inr _ =>
          (* Store transaction in prepared state *)
          let transaction :=
            {| transaction_id := transaction_id;
               coordinator_id := coordinator_id;
               repo_id := repo_id;
               ref := ref;
               commit := commit;
               operation := operation;
               timestamp := now;
               status := prepared |} in
          let this' := transactions_set transaction_id transaction this in
          (accepted this prepared transaction_id, this', d1)
      | inl message =>
          (* catch *)
          ({| statusCode := 500;
              json := [("error", JStr "Prepare failed");
                       ("details", JStr message)] |}, this, d1)
      end
  end.

End Methods.

Definition handleCommit (this : ReplicationHandler) (body : JsonObject)
  : Response * ReplicationHandler :=
  (* Validate required fields *)
  match required2 body with
  | None => (missing_fields "transaction_id, coordinator_id", this)
  | Some (transaction_id, coordinator_id) =>
      (* Check if transaction exists *)
      match transactions this !! transaction_id with
      | None =>
          ({| statusCode := 404;
              json := [("error",
                        JStr ("Transaction not found: " +:+ transaction_id))] |},
           this)
      | Some transaction =>
          (* Update transaction status *)
          let transaction := set_status committed transaction in
          let this' := transactions_set transaction_id transaction this in
          (accepted this committed transaction_id, this')
      end
  end.

Definition handleAbort (this : ReplicationHandler) (body : JsonObject)
  : Response * ReplicationHandler :=
  (* Validate required fields *)
  match required2 body with
  | None => (missing_fields "transaction_id, coordinator_id", this)
  | Some (transaction_id, coordinator_id) =>
      (* Check if transaction exists (optional - can succeed even if not found) *)
      let this' :=
        match transactions this !! transaction_id with
        | Some transaction =>
            let transaction := set_status aborted transaction in
            transactions_set transaction_id transaction this
        | None => this
        end in
      (accepted this aborted transaction_id, this')
  end.

Definition getTransactionCount (this : ReplicationHandler) : Z :=
  Z.of_nat (size (transactions this)).

Definition clearTransactions (this : ReplicationHandler) : ReplicationHandler :=
  {| transactions := ∅;
     serverId := serverId this;
     storage := storage this |}.

End Handler.

(** ** git-server.ts *)

Module Server.

Record GitServer : Type := mkServer {
  storage : RepoStorage;
  replicationCoordinator : option ReplicationCoordinator
}.

(** [new GitServer(dataDir, serverId, peerUrls)] *)
Definition newGitServer (dataDir serverId : string) (peerUrls : list string)
  : GitServer :=
  {| storage := {| dataDir := dataDir |};
     replicationCoordinator :=
       if (0 <? Z.of_nat (length peerUrls))
       then Some {| Coordinator.serverId := serverId;
                    Coordinator.peerUrls := peerUrls |}
       else None |}.

(** [{ repo_id, ref: 'refs/heads/main', commit: 'initial', operation: 'create' }] *)
Definition createWrite (repo_id : string) : JsonObject :=
  <["repo_id" := repo_id]>
    (<["ref" := "refs/heads/main"]>
       (<["commit" := "initial"]>
          (<["operation" := "create"]> ∅))).

Section Methods.
Context {FS : Type} `{NodeFs FS}.

Definition handleCreateRepo (this : GitServer) (body : JsonObject) (d : FS)
  : IO (Response * FS) :=
  match body !! "repo_id" with
  | Some repo_id =>
      if negb (truthy (Some repo_id)) then
        mret ({| statusCode := 400;
                 json := [("error", JStr "Missing repo_id")] |}, d)
      else if repoExists (storage this) repo_id d then
        (* Check if repo already exists *)
        mret ({| statusCode := 409;
                 json := [("error", JStr "Repository already exists")] |}, d)
      else
        (* Create repo locally *)
        match createRepo (storage this) repo_id d with
        | (inl message, d1) =>
            (* catch *)
            mret ({| statusCode := 500;
                     json := [("error", JStr "Failed to create repository");
                              ("details", JStr message)] |}, d1)
        | (inr _, d1) =>
            (* Replicate to peers if coordinator is configured *)
            match replicationCoordinator this with
            | Some coordinator =>
                replicationResult ←
                  replicateWrite coordinator (createWrite repo_id);
                if negb (success replicationResult) then
                  (* "Rollback local creation if replication fails": the
                     branch only answers *)
                  mret ({| statusCode := 500;
                           json := [("error", JStr "Replication failed");
                                    ("details",
                                     of_option (error replicationResult))] |},
                        d1)
                else
                  mret ({| statusCode := 201;
                           json := [("repo_id", JStr repo_id);
                                    ("created", JBool true);
                                    ("replicated", JBool true);
                                    (* [peersConfirmed || 0] is [peersConfirmed] *)
                                    ("peers_confirmed",
                                     JNum (peersConfirmed replicationResult))] |},
                        d1)
            | None =>
                mret ({| statusCode := 201;
                         json := [("repo_id", JStr repo_id);
                                  ("created", JBool true);
                                  ("replicated", JBool false);
                                  ("peers_confirmed", JNum 0)] |}, d1)
            end
        end
  | None =>
      mret ({| statusCode := 400;
               json := [("error", JStr "Missing repo_id")] |}, d)
  end.

(** [user] and [repo] are [req.params.user] and [req.params.repo]. *)
Definition handleGetRepo (this : GitServer) (user repo : string) (d : FS)
  : Response :=
  let repo_id := user +:+ "/" +:+ repo in
  let exists_ := repoExists (storage this) repo_id d in
  if negb exists_ then
    {| statusCode := 404;
       json := [("repo_id", JStr repo_id); ("exists", JBool false)] |}
  else
    {| statusCode := 200;
       json := [("repo_id", JStr repo_id);
                ("exists", JBool true);
                ("path", JStr (getRepoPath (storage this) repo_id))] |}.

End Methods.

End Server.

(** ** storage.ts: listing the repositories *)

Module Listing.

(** [s.endsWith(suffix)] *)
Definition endsWith (s suffix : string) : bool :=
  let n := String.length s in
  let m := String.length suffix in
  bool_decide (m ≤ n)%nat && String.eqb (String.substring (n - m) m s) suffix.

(** [s.slice(0, -k)] *)
Definition slice_end (k : nat) (s : string) : string :=
  String.substring 0 (String.length s - k) s.

(** What [fs.readdir(dir, { withFileTypes: true })] finds below the data
    directory.  An entry is a directory or something else; the listing of
    a directory is the entries that [readdir] returns for it, each with
    its name, or [None] when [readdir] rejects (the directory is missing
    or unreadable). *)
Inductive Dirent : Type :=
| File
| Directory (listing : option (list (string * Dirent))).

(** [entry.isDirectory()] *)
Definition isDirectory (entry : Dirent) : bool :=
  match entry with
  | Directory _ => true
  | File => false
  end.

(** [prefix ? `${prefix}/${name}` : name] *)
Definition under (prefix name : string) : string :=
  if negb (String.eqb prefix "") then prefix +:+ "/" +:+ name else name.

(** [scanDirectory(dir, prefix, repos)]: [dir] stands for what is found at
    the path, [repos] for the array that the calls push to; [None] when a
    [readdir] has rejected. *)
Fixpoint scanDirectory (dir : Dirent) (prefix : string) (repos : list string)
  : option (list string) :=
  match dir with
  | Directory (Some entries) =>
      (fix loop (entries : list (string * Dirent)) (repos : list string)
         : option (list string) :=
         match entries with
         | [] => Some repos
         | (name, entry) :: rest =>
             if isDirectory entry then
               if endsWith name ".git" then
                 (* Found a repo *)
                 let repoName := slice_end 4 name in
                 let repoId := under prefix repoName in
                 loop rest (repos ++ [repoId])
               else
                 (* Recurse into subdirectory *)
                 let newPrefix := under prefix name in
                 match scanDirectory entry newPrefix repos with
                 | Some repos' => loop rest repos'
                 | None => None
                 end
             else loop rest repos
         end) entries repos
  | _ => None
  end.

(** [listRepos()], with [dataDir] standing for what is found at
    [this.dataDir]: a rejected [readdir] anywhere gives the empty list. *)
Definition listRepos (dataDir : Dirent) : list string :=
  match scanDirectory dataDir "" [] with
  | Some repos => repos
  | None => []
  end.

(** The data directory as [createRepo] lays it out for ids [owner/name]:
    one directory per owner, holding one [name.git] directory per
    repository, whose own listing is [inside owner name]. *)
Definition layout (owners : list (string * list string))
    (inside : string → string → option (list (string * Dirent))) : Dirent :=
  Directory (Some
    (map (λ '(owner, names),
            (owner,
             Directory (Some
               (map (λ name, (name +:+ ".git", Directory (inside owner name)))
                    names))))
         owners)).

(** A [readdir] of the scan of [dir] rejects: [dir] is not a directory
    that can be read, or the scan descends into an entry for which this
    holds.  The scan descends into the directories whose name does not end
    in [.git]. *)
Inductive scan_rejects : Dirent → Prop :=
| rejects_file : scan_rejects File
| rejects_unreadable : scan_rejects (Directory None)
| rejects_below (entries : list (string * Dirent)) (name : string)
    (entry : Dirent) :
    (name, entry) ∈ entries →
    isDirectory entry = true →
    endsWith name ".git" = false →
    scan_rejects entry →
    scan_rejects (Directory (Some entries)).

End Listing.

(** ** Notions used to state the properties *)

Module Observe.

(** The post that [sendPrepare] issues to a peer. *)
Definition prepareCall (this : ReplicationCoordinator) (transactionId : string)
    (writeData : JsonObject) (peerUrl : string) : Call :=
  {| call_url := peerUrl +:+ "/replicate/prepare";
     call_body := prepareBody this transactionId writeData |}.

(** The post that [sendCommit] issues to a peer. *)
Definition commitCall (this : ReplicationCoordinator) (transactionId : string)
    (peerUrl : string) : Call :=
  {| call_url := peerUrl +:+ "/replicate/commit";
     call_body := commitBody this transactionId |}.

(** The URL of a peer's abort endpoint, as the server routes it
    ([app.post('/replicate/abort', ...)]). *)
Definition abortUrl (peerUrl : string) : string :=
  peerUrl +:+ "/replicate/abort".

(** How the environment settles a batch of calls issued in order after
    [log]. *)
Fixpoint outcomes (env : Env) (log : list Call) (calls : list Call)
  : list bool :=
  match calls with
  | [] => []
  | c :: calls' => settles env log c :: outcomes env (log ++ [c]) calls'
  end.

(** The transaction identifier that a run of [replicateWrite] started in
    world [w] draws. *)
Definition transactionIdOf (env : Env) (w : World) : string :=
  uuid_at env (drawn w).

(** The prepare posts of a run of [replicateWrite], one per peer. *)
Definition prepareCalls (this : ReplicationCoordinator)
    (writeData : JsonObject) (env : Env) (w : World) : list Call :=
  map (prepareCall this (transactionIdOf env w) writeData) (peerUrls this).

(** The outcome of each peer's prepare in that run, in the order of
    [peerUrls]. *)
Definition prepareOutcomes (this : ReplicationCoordinator)
    (writeData : JsonObject) (env : Env) (w : World) : list bool :=
  outcomes env (posts w) (prepareCalls this writeData env w).

(** The number of prepares that succeeded. *)
Definition prepared_count (rs : list bool) : Z :=
  Z.of_nat (length (filter (λ r, r = true) rs)).

(** The peers whose prepare succeeded: position by position, the peer is
    kept when its outcome is [true]. *)
Fixpoint prepared_peers (peers : list string) (rs : list bool)
  : list string :=
  match peers, rs with
  | p :: peers', r :: rs' =>
      if r then p :: prepared_peers peers' rs' else prepared_peers peers' rs'
  | _, _ => []
  end.

(** A request that a peer's handler receives. *)
Inductive Request : Type :=
| Prepare (now : string) (body : JsonObject)
| Commit (body : JsonObject)
| Abort (body : JsonObject).

(** The node's handler serves one request. *)
Definition serve {FS : Type} `{NodeFs FS} (r : Request)
    (s : Handler.ReplicationHandler * FS) : Handler.ReplicationHandler * FS :=
  match r with
  | Prepare now body =>
      let '(_, this', d') := Handler.handlePrepare s.1 now body s.2 in (this', d')
  | Commit body => ((Handler.handleCommit s.1 body).2, s.2)
  | Abort body => ((Handler.handleAbort s.1 body).2, s.2)
  end.

(** The node's handler serves a history of requests, oldest first. *)
Definition serve_all {FS : Type} `{NodeFs FS} (rs : list Request)
    (s : Handler.ReplicationHandler * FS) : Handler.ReplicationHandler * FS :=
  foldl (λ s r, serve r s) s rs.

(** The request is a prepare that names transaction [tid]. *)
Definition prepares (tid : string) (r : Request) : Prop :=
  match r with
  | Prepare _ body => body !! "transaction_id" = Some tid
  | _ => False
  end.

(** [new ReplicationHandler(serverId, storage)] *)
Definition newHandler (serverId : string) (storage : RepoStorage)
  : Handler.ReplicationHandler :=
  {| Handler.transactions := ∅;
     Handler.serverId := serverId;
     Handler.storage := storage |}.

End Observe.

Export Observe.

(** ** Concrete environments, used to run the definitions *)

Module Fixtures.

(** A disk that never fails: the set of the directories that exist. *)
#[export] Instance DirSet : NodeFs (gset string) := {|
  fs_access p d := bool_decide (p ∈ d);
  fs_mkdir_recursive p d := (inr (), {[p]} ∪ d);
  git_init_bare p d := (inr (), {[p]} ∪ d);
  path_join a b := a +:+ "/" +:+ b;
  path_dirname p := p +:+ "/.."
|}.

#[export] Instance DirSet_laws : NodeFsLaws (gset string).
Proof.
  constructor. intros p d d'. cbn. intros [= <-].
  apply bool_decide_eq_true. set_solver.
Qed.

Definition uuids (n : nat) : string := "tx-" +:+ pretty n.

(** Every peer answers every post. *)
Definition all_up : Env :=
  {| uuid_at := uuids; settles := λ _ _, true |}.

(** No peer answers. *)
Definition all_down : Env :=
  {| uuid_at := uuids; settles := λ _ _, false |}.

(** Only the peer at [http://a] answers, and only its prepare endpoint. *)
Definition only_a_prepares : Env :=
  {| uuid_at := uuids;
     settles := λ _ c, bool_decide (call_url c = "http://a/replicate/prepare") |}.

(** Every prepare is answered on time, every commit times out: the
    outcome depends on how many posts were issued before. *)
Definition commits_time_out (peers : nat) : Env :=
  {| uuid_at := uuids;
     settles := λ log _, bool_decide (length log < peers)%nat |}.

Definition world0 : World := {| posts := []; drawn := 0 |}.

Definition write1 : JsonObject :=
  <["repo_id" := "alice/proj"]>
    (<["ref" := "refs/heads/main"]> (<["commit" := "abc123"]> ∅)).

Definition coordinator (peers : list string) : ReplicationCoordinator :=
  {| Coordinator.serverId := "server-1"; Coordinator.peerUrls := peers |}.

Definition handler0 : Handler.ReplicationHandler :=
  newHandler "server-2" {| dataDir := "./data" |}.

(** A prepare request as the coordinator of [server-1] sends it. *)
Definition prepare1 : JsonObject :=
  prepareBody (coordinator ["http://b"]) "tx-0" (Server.createWrite "alice/proj").

Definition commit1 : JsonObject := commitBody (coordinator ["http://b"]) "tx-0".

(** A prepare request of another transaction. *)
Definition prepare2 : JsonObject :=
  prepareBody (coordinator ["http://b"]) "tx-7" (Server.createWrite "bob/lib").

(** The handler of [server-2] after it has prepared and committed [tx-0]
    on an empty disk. *)
Definition committed1 : Handler.ReplicationHandler * gset string :=
  serve_all [Prepare "2025-12-11T10:00:00.000Z" prepare1; Commit commit1]
            (handler0, ∅).

(** The record of [tx-0] in that handler. *)
Definition record1 : Handler.Transaction :=
  {| Handler.transaction_id := "tx-0";
     Handler.coordinator_id := "server-1";
     Handler.repo_id := "alice/proj";
     Handler.ref := Some "refs/heads/main";
     Handler.commit := Some "initial";
     Handler.operation := Some "create";
     Handler.timestamp := "2025-12-11T10:00:00.000Z";
     Handler.status := Handler.committed |}.

(** [server-1] with the single peer [http://b]. *)
Definition server1 : Server.GitServer :=
  Server.newGitServer "./data" "server-1" ["http://b"].

(** The body of [POST /repos] for [alice/proj]. *)
Definition createBody : JsonObject := <["repo_id" := "alice/proj"]> ∅.

End Fixtures.

(** ** Further notions and environments *)

Module History.

(** The body of a request. *)
Definition request_body (r : Request) : JsonObject :=
  match r with
  | Prepare _ body => body
  | Commit body => body
  | Abort body => body
  end.

(** The request names transaction [tid]. *)
Definition names (tid : string) (r : Request) : Prop :=
  request_body r !! "transaction_id" = Some tid.

End History.

Export History.

Module MoreFixtures.

(** A write that carries a [transaction_id] field of its own. *)
Definition write_with_id : JsonObject :=
  <["transaction_id" := "mine"]> (Server.createWrite "alice/proj").

(** A data directory with two owners; [bob]'s directory cannot be read. *)
Definition tree_unreadable : Listing.Dirent :=
  Listing.Directory (Some
    [("alice", Listing.Directory (Some
                 [("proj.git", Listing.Directory (Some []))]));
     ("bob", Listing.Directory None)]).

(** Every bare repository holds a [HEAD] file and an [objects] directory. *)
Definition bare (owner name : string)
  : option (list (string * Listing.Dirent)) :=
  Some [("HEAD", Listing.File); ("objects", Listing.Directory (Some []))].

(** [server-1] without peers. *)
Definition server_alone : Server.GitServer :=
  Server.newGitServer "./data" "server-1" [].

End MoreFixtures.

(** * Properties *)

(** ** The quorum *)

Section Quorum.

(** [Math.ceil(n / 2)] on an integer [n], in integer arithmetic. *)
Lemma ceil_half (n : Z) : Qceiling (inject_Z n / 2) = (n + 1) / 2.
Proof.
  unfold Qceiling, Qfloor, Qdiv, Qmult, Qinv, Qopp, inject_Z; simpl.
  rewrite Z.mul_1_r.
  Z.div_mod_to_equations. lia.
Qed.

Lemma getQuorumSize_eq (this : ReplicationCoordinator) :
  getQuorumSize this =
  let N := 1 + Z.of_nat (length (peerUrls this)) in
  if N =? 2 then 1 else (N + 1) / 2 - 1.
Proof. unfold getQuorumSize. cbv zeta. by rewrite ceil_half. Qed.

(** The quorum never exceeds the number of peers. *)
Lemma getQuorumSize_le_peers (this : ReplicationCoordinator) :
  getQuorumSize this ≤ Z.of_nat (length (peerUrls this)).
Proof.
  rewrite getQuorumSize_eq. cbv zeta.
  destruct (Z.eqb_spec (1 + Z.of_nat (length (peerUrls this))) 2); [lia|].
  Z.div_mod_to_equations. lia.
Qed.

Lemma getQuorumSize_nonneg (this : ReplicationCoordinator) :
  0 ≤ getQuorumSize this.
Proof.
  rewrite getQuorumSize_eq. cbv zeta.
  destruct (Z.eqb_spec (1 + Z.of_nat (length (peerUrls this))) 2); [lia|].
  Z.div_mod_to_equations. lia.
Qed.

End Quorum.

(** ** One run of [replicateWrite] *)

Section Run.

Implicit Types (this : ReplicationCoordinator) (writeData : JsonObject).
Implicit Types (env : Env) (w : World) (rs : list bool).

Lemma outcomes_length env (log calls : list Call) :
  length (outcomes env log calls) = length calls.
Proof.
  revert log. induction calls as [|c calls IH]; intros log; simpl; [done|].
  by rewrite IH.
Qed.

Lemma allSettled_sendPrepare this (tx : string) writeData (peers : list string)
    env w :
  allSettled (map (λ peerUrl, sendPrepare this peerUrl tx writeData) peers) env w
  = (outcomes env (posts w) (map (prepareCall this tx writeData) peers),
     {| posts := posts w ++ map (prepareCall this tx writeData) peers;
        drawn := drawn w |}).
Proof.
  revert w. induction peers as [|p peers IH]; intros [log n]; simpl.
  - by rewrite app_nil_r.
  - unfold mbind, IO_bind, mret, IO_ret. simpl.
    rewrite IH. simpl. by rewrite <- app_assoc.
Qed.

Lemma allSettled_sendCommit this (tx : string) (peers : list string) env w :
  allSettled (map (λ peerUrl, sendCommit this peerUrl tx) peers) env w
  = (outcomes env (posts w) (map (commitCall this tx) peers),
     {| posts := posts w ++ map (commitCall this tx) peers;
        drawn := drawn w |}).
Proof.
  revert w. induction peers as [|p peers IH]; intros [log n]; simpl.
  - by rewrite app_nil_r.
  - unfold mbind, IO_bind, mret, IO_ret. simpl.
    rewrite IH. simpl. by rewrite <- app_assoc.
Qed.

Lemma prepared_peers_nil_r (peers : list string) : prepared_peers peers [] = [].
Proof. by destruct peers. Qed.

(** The index-based filter of the source selects the peers whose prepare
    succeeded. *)
Lemma filter_index_prepared (f : nat → bool) (k : nat) (peers : list string) rs :
  (∀ i, f (k + i)%nat = bool_decide (rs !! i = Some true)) →
  filter_index (λ _ index, f index) k peers = prepared_peers peers rs.
Proof.
  revert k rs. induction peers as [|p peers IH]; intros k rs Hf; [done|].
  simpl. pose proof (Hf 0%nat) as H0. rewrite Nat.add_0_r in H0. rewrite H0.
  destruct rs as [|r rs]; simpl.
  - rewrite (IH (S k) []); [apply prepared_peers_nil_r|].
    intros i. replace (S k + i)%nat with (k + S i)%nat by lia. by rewrite Hf.
  - rewrite (IH (S k) rs).
    + by destruct r.
    + intros i. replace (S k + i)%nat with (k + S i)%nat by lia. by rewrite Hf.
Qed.

Lemma prepared_peers_length (peers : list string) rs :
  length peers = length rs →
  Z.of_nat (length (prepared_peers peers rs)) = prepared_count rs.
Proof.
  unfold prepared_count. revert rs.
  induction peers as [|p peers IH]; intros [|r rs] Hlen; simplify_eq/=; [done|].
  destruct r.
  - rewrite filter_cons_True by done. simpl. specialize (IH rs Hlen). lia.
  - rewrite filter_cons_False by done. by apply IH.
Qed.

Lemma prepared_peers_all (peers : list string) rs :
  length peers = length rs → Forall (λ r, r = true) rs →
  prepared_peers peers rs = peers.
Proof.
  revert rs. induction peers as [|p peers IH]; intros [|r rs] Hlen Hall;
    simplify_eq/=; [done|].
  inversion Hall; subst. f_equal. by apply IH.
Qed.

Lemma prepared_count_all rs :
  Forall (λ r, r = true) rs → prepared_count rs = Z.of_nat (length rs).
Proof.
  unfold prepared_count. induction 1 as [|r rs -> _ IH]; [done|].
  rewrite filter_cons_True by done. simpl. lia.
Qed.

(** A peer is among the prepared ones only through a position at which
    its prepare succeeded. *)
Lemma prepared_peers_elem (peers : list string) rs (p : string) :
  p ∈ prepared_peers peers rs →
  ∃ i, peers !! i = Some p ∧ rs !! i = Some true.
Proof.
  revert rs. induction peers as [|q peers IH]; intros [|r rs] Hin;
    simpl in Hin; try by apply elem_of_nil in Hin.
  destruct r.
  - apply elem_of_cons in Hin as [->|Hin]; [by exists 0%nat|].
    destruct (IH _ Hin) as (i & ? & ?). by exists (S i).
  - destruct (IH _ Hin) as (i & ? & ?). by exists (S i).
Qed.

(** The result and the final world of a run, in closed form. *)
Lemma replicateWrite_run this writeData env w :
  let tx := transactionIdOf env w in
  let calls := prepareCalls this writeData env w in
  let rs := prepareOutcomes this writeData env w in
  let quorumSize := getQuorumSize this in
  replicateWrite this writeData env w =
  if prepared_count rs <? quorumSize then
    ({| success := false;
        peersConfirmed := prepared_count rs;
        peersRequired := quorumSize;
        error := Some ("Quorum not reached. Required: "
                       +:+ pretty quorumSize +:+ ", Got: "
                       +:+ pretty (prepared_count rs)) |},
     {| posts := posts w ++ calls; drawn := S (drawn w) |})
  else
    ({| success := true;
        peersConfirmed := prepared_count rs;
        peersRequired := quorumSize;
        error := None |},
     {| posts := posts w ++ calls
                 ++ map (commitCall this tx) (prepared_peers (peerUrls this) rs);
        drawn := S (drawn w) |}).
Proof.
  intros tx calls rs quorumSize.
  subst tx calls rs quorumSize.
  unfold prepareOutcomes, prepareCalls, transactionIdOf, prepared_count.
  unfold replicateWrite, mbind, IO_bind, uuidv4. simpl.
  rewrite allSettled_sendPrepare. simpl.
  case_match; [done|].
  rewrite allSettled_sendCommit. simpl.
  rewrite (filter_index_prepared _ 0 (peerUrls this) _ (λ _, eq_refl)).
  unfold mret, IO_ret. by rewrite <- app_assoc.
Qed.

Lemma prepareOutcomes_length this writeData env w :
  length (prepareOutcomes this writeData env w) = length (peerUrls this).
Proof.
  unfold prepareOutcomes, prepareCalls. by rewrite outcomes_length, length_map.
Qed.

End Run.

(** ** Claims about the coordinator *)

Section CoordinatorClaims.

Implicit Types (this : ReplicationCoordinator) (writeData : JsonObject).
Implicit Types (env : Env) (w : World).

(** C1, as the code has it.  With [N = 1 + peerUrls.length] servers,
    [getQuorumSize()] returns 0, 1, 1, 1, 2, 2, 3 for N = 1, ..., 7: the
    list below is indexed by the number of peers, [N - 1].  The entry for
    N = 7 is [ceil(7/2) - 1 = 3]. *)
Theorem getQuorumSize_table this :
  (length (peerUrls this) < 7)%nat →
  [0; 1; 1; 1; 2; 2; 3] !! length (peerUrls this) = Some (getQuorumSize this).
Proof.
  intros Hlen. rewrite getQuorumSize_eq. cbv zeta.
  destruct (length (peerUrls this)) as [|[|[|[|[|[|[|n]]]]]]];
    solve [reflexivity | lia].
Qed.

Lemma getQuorumSize_table_witness :
  (length (peerUrls (Fixtures.coordinator (replicate 6 "http://peer"))) < 7)%nat ∧
  [0; 1; 1; 1; 2; 2; 3] !! 6%nat
  = Some (getQuorumSize (Fixtures.coordinator (replicate 6 "http://peer"))).
Proof.
  split.
  - simpl. lia.
  - apply (getQuorumSize_table (Fixtures.coordinator (replicate 6 "http://peer"))).
    simpl. lia.
Defined.

(** C1, as the claim has it, fails for seven servers: with six peers
    [getQuorumSize()] is 3, not 2. *)
Lemma getQuorumSize_seven_servers :
  getQuorumSize (Fixtures.coordinator (replicate 6 "http://peer")) = 3
  ∧ getQuorumSize (Fixtures.coordinator (replicate 6 "http://peer")) ≠ 2.
Proof. split; [reflexivity | discriminate]. Qed.

(** When quorum is missed, the run consists of the prepare posts alone and
    the result carries the two counts. *)
Lemma replicateWrite_quorum_missed this writeData env w :
  let rs := prepareOutcomes this writeData env w in
  prepared_count rs < getQuorumSize this →
  let run := replicateWrite this writeData env w in
  success run.1 = false
  ∧ peersConfirmed run.1 = prepared_count rs
  ∧ peersRequired run.1 = getQuorumSize this
  ∧ posts run.2 = posts w ++ prepareCalls this writeData env w.
Proof.
  intros rs Hlt run. subst run. rewrite replicateWrite_run. cbv zeta.
  fold rs. destruct (Z.ltb_spec (prepared_count rs) (getQuorumSize this)); [done|lia].
Qed.

(** C2, evaluated.  Five servers, so the quorum is 2; only the peer at
    [http://a] prepares.  The result is the failure with counts 1 and 2, as
    the claim says, but the posts of the run are the four prepares: no post
    goes to the abort endpoint of [http://a]. *)
Example replicateWrite_quorum_missed_sends_no_abort :
  let this := Fixtures.coordinator ["http://a"; "http://b"; "http://c"; "http://d"] in
  let run := replicateWrite this Fixtures.write1 Fixtures.only_a_prepares Fixtures.world0 in
  prepareOutcomes this Fixtures.write1 Fixtures.only_a_prepares Fixtures.world0
    = [true; false; false; false]
  ∧ run.1 = {| success := false;
               peersConfirmed := 1;
               peersRequired := 2;
               error := Some "Quorum not reached. Required: 2, Got: 1" |}
  ∧ posts run.2 = map (prepareCall this "tx-0" Fixtures.write1) (peerUrls this)
  ∧ Forall (λ c, call_url c ≠ abortUrl "http://a") (posts run.2).
Proof.
  cbv zeta. split_and!.
  - by vm_compute.
  - by vm_compute.
  - by vm_compute.
  - vm_compute. repeat constructor; intros [=].
Qed.

(** C4.  When quorum is reached, the posts of the run are one prepare per
    peer followed by one commit for each position of [peerUrls] whose
    prepare succeeded, and for no other; a peer (listed once) whose prepare
    failed is not among the committed ones.  When every prepare succeeds,
    the run succeeds, [peersConfirmed] is the number of peers and the
    commits are one per peer. *)
Theorem replicateWrite_commits_prepared_peers this writeData env w :
  let rs := prepareOutcomes this writeData env w in
  let tx := transactionIdOf env w in
  let run := replicateWrite this writeData env w in
  let committed := prepared_peers (peerUrls this) rs in
  (getQuorumSize this ≤ prepared_count rs →
     posts run.2 = posts w ++ prepareCalls this writeData env w
                   ++ map (commitCall this tx) committed
     ∧ (∀ p, p ∈ committed →
          ∃ i, peerUrls this !! i = Some p ∧ rs !! i = Some true)
     ∧ (NoDup (peerUrls this) → ∀ i p,
          peerUrls this !! i = Some p → rs !! i = Some false → p ∉ committed))
  ∧ (Forall (λ r, r = true) rs →
     success run.1 = true
     ∧ peersConfirmed run.1 = Z.of_nat (length (peerUrls this))
     ∧ posts run.2 = posts w ++ prepareCalls this writeData env w
                     ++ map (commitCall this tx) (peerUrls this)).
Proof.
  intros rs tx run committed. subst run.
  pose proof (prepareOutcomes_length this writeData env w) as Hlen. fold rs in Hlen.
  rewrite replicateWrite_run. cbv zeta. fold rs tx committed. split.
  - intros Hq.
    destruct (Z.ltb_spec (prepared_count rs) (getQuorumSize this)); [lia|].
    split_and!; [done|apply prepared_peers_elem|].
    intros Hnd i p Hi Hfail Hin.
    apply prepared_peers_elem in Hin as (j & Hj & Hok).
    assert (i = j) by (eapply NoDup_lookup; eauto). subst j. congruence.
  - intros Hall.
    pose proof (getQuorumSize_le_peers this) as Hle.
    rewrite (prepared_count_all rs Hall), Hlen.
    destruct (Z.ltb_spec (Z.of_nat (length (peerUrls this))) (getQuorumSize this));
      [lia|].
    subst committed. by rewrite prepared_peers_all.
Qed.

Lemma replicateWrite_commits_prepared_peers_witness :
  let this := Fixtures.coordinator ["http://a"; "http://b"] in
  let run := replicateWrite this Fixtures.write1 Fixtures.all_up Fixtures.world0 in
  Forall (λ r, r = true)
    (prepareOutcomes this Fixtures.write1 Fixtures.all_up Fixtures.world0)
  ∧ success run.1 = true
  ∧ peersConfirmed run.1 = 2
  ∧ posts run.2 = map (prepareCall this "tx-0" Fixtures.write1) ["http://a"; "http://b"]
                  ++ map (commitCall this "tx-0") ["http://a"; "http://b"].
Proof.
  cbv zeta.
  assert (Forall (λ r, r = true)
            (prepareOutcomes (Fixtures.coordinator ["http://a"; "http://b"])
               Fixtures.write1 Fixtures.all_up Fixtures.world0)) as Hall
    by (repeat constructor).
  split; [exact Hall|].
  destruct (replicateWrite_commits_prepared_peers
              (Fixtures.coordinator ["http://a"; "http://b"])
              Fixtures.write1 Fixtures.all_up Fixtures.world0) as [_ Hthm].
  destruct (Hthm Hall) as (Hs & Hn & Hp).
  split_and!; [exact Hs|exact Hn|exact Hp].
Defined.

(** C5.  Once the prepares reach quorum the result is a success, whatever
    the commit posts come to: an environment that settles the prepares
    alike gives the same result and the same posts.  The commit posts are
    exactly one per prepared peer, so none is sent a second time. *)
Theorem replicateWrite_success_despite_commit_failures this writeData env w :
  let rs := prepareOutcomes this writeData env w in
  let tx := transactionIdOf env w in
  let run := replicateWrite this writeData env w in
  getQuorumSize this ≤ prepared_count rs →
  success run.1 = true
  ∧ peersConfirmed run.1 = prepared_count rs
  ∧ (∃ commits,
       posts run.2 = posts w ++ prepareCalls this writeData env w ++ commits
       ∧ commits = map (commitCall this tx) (prepared_peers (peerUrls this) rs)
       ∧ Z.of_nat (length commits) = prepared_count rs)
  ∧ (∀ env',
       transactionIdOf env' w = tx →
       prepareOutcomes this writeData env' w = rs →
       replicateWrite this writeData env' w = run).
Proof.
  intros rs tx run Hq. subst run.
  pose proof (prepareOutcomes_length this writeData env w) as Hlen. fold rs in Hlen.
  rewrite replicateWrite_run. cbv zeta. fold rs tx.
  destruct (Z.ltb_spec (prepared_count rs) (getQuorumSize this)); [lia|].
  split_and!; [done|done| |].
  - eexists; split_and!; [done|done|].
    rewrite length_map. by apply prepared_peers_length.
  - intros env' Htx Hrs. rewrite replicateWrite_run. cbv zeta.
    unfold prepareCalls. rewrite Htx, Hrs.
    by destruct (Z.ltb_spec (prepared_count rs) (getQuorumSize this)); [lia|].
Qed.

Lemma replicateWrite_success_despite_commit_failures_witness :
  let this := Fixtures.coordinator ["http://a"; "http://b"] in
  let env := Fixtures.commits_time_out 2 in
  let run := replicateWrite this Fixtures.write1 env Fixtures.world0 in
  getQuorumSize this ≤ prepared_count (prepareOutcomes this Fixtures.write1 env Fixtures.world0)
  ∧ outcomes env (map (prepareCall this "tx-0" Fixtures.write1) (peerUrls this))
      (map (commitCall this "tx-0") (peerUrls this)) = [false; false]
  ∧ success run.1 = true.
Proof.
  cbv zeta.
  assert (getQuorumSize (Fixtures.coordinator ["http://a"; "http://b"])
          ≤ prepared_count
              (prepareOutcomes (Fixtures.coordinator ["http://a"; "http://b"])
                 Fixtures.write1 (Fixtures.commits_time_out 2) Fixtures.world0)) as Hq
    by (apply Z.leb_le; vm_compute; reflexivity).
  split_and!; [exact Hq|reflexivity|].
  exact (proj1 (replicateWrite_success_despite_commit_failures
                  (Fixtures.coordinator ["http://a"; "http://b"])
                  Fixtures.write1 (Fixtures.commits_time_out 2) Fixtures.world0 Hq)).
Defined.

End CoordinatorClaims.

(** ** The peer handler *)

Section HandlerLemmas.

Import Handler.

Implicit Types (this : ReplicationHandler) (body : JsonObject).
Implicit Types (tid cid rid : string).

Lemma truthy_Some (s : string) : truthy (Some s) = true ↔ s ≠ "".
Proof.
  unfold truthy. rewrite negb_true_iff. split.
  - intros E ->. by rewrite String.eqb_refl in E.
  - intros Hne. by apply String.eqb_neq.
Qed.

Lemma truthy_true (v : option string) :
  truthy v = true ↔ ∃ s, v = Some s ∧ s ≠ "".
Proof.
  destruct v as [s|].
  - rewrite truthy_Some. naive_solver.
  - simpl. naive_solver.
Qed.

Lemma required2_Some body tid cid :
  required2 body = Some (tid, cid) ↔
  body !! "transaction_id" = Some tid ∧ tid ≠ ""
  ∧ body !! "coordinator_id" = Some cid ∧ cid ≠ "".
Proof.
  unfold required2.
  destruct (body !! "transaction_id") as [t|], (body !! "coordinator_id") as [c|];
    try naive_solver.
  destruct (truthy (Some t)) eqn:Et, (truthy (Some c)) eqn:Ec; simpl;
    try apply truthy_Some in Et; try apply truthy_Some in Ec;
    try (apply not_true_iff_false in Et; rewrite truthy_Some in Et);
    try (apply not_true_iff_false in Ec; rewrite truthy_Some in Ec);
    naive_solver.
Qed.

Lemma required2_None body :
  required2 body = None ↔
  truthy (body !! "transaction_id") = false
  ∨ truthy (body !! "coordinator_id") = false.
Proof.
  unfold required2.
  destruct (body !! "transaction_id") as [t|], (body !! "coordinator_id") as [c|];
    simpl; try naive_solver.
  fold (truthy (Some t)). fold (truthy (Some c)).
  destruct (truthy (Some t)), (truthy (Some c)); simpl; naive_solver.
Qed.

Lemma required3_Some body tid cid rid :
  required3 body = Some (tid, cid, rid) ↔
  body !! "transaction_id" = Some tid ∧ tid ≠ ""
  ∧ body !! "coordinator_id" = Some cid ∧ cid ≠ ""
  ∧ body !! "repo_id" = Some rid ∧ rid ≠ "".
Proof.
  unfold required3.
  destruct (required2 body) as [[t c]|] eqn:E2.
  - apply required2_Some in E2 as (Ht & ? & Hc & ?).
    destruct (body !! "repo_id") as [r|]; [|naive_solver].
    destruct (truthy (Some r)) eqn:Er; simpl.
    + apply truthy_Some in Er. naive_solver.
    + apply not_true_iff_false in Er. rewrite truthy_Some in Er. naive_solver.
  - split; [done|]. intros (Ht & ? & Hc & ? & _).
    assert (required2 body = Some (tid, cid)) by (apply required2_Some; done).
    congruence.
Qed.

Lemma required3_None body :
  required3 body = None ↔
  truthy (body !! "transaction_id") = false
  ∨ truthy (body !! "coordinator_id") = false
  ∨ truthy (body !! "repo_id") = false.
Proof.
  unfold required3.
  destruct (required2 body) as [[t c]|] eqn:E2.
  - apply required2_Some in E2 as (Ht & ? & Hc & ?).
    rewrite Ht, Hc.
    assert (truthy (Some t) = true) as -> by by apply truthy_Some.
    assert (truthy (Some c) = true) as -> by by apply truthy_Some.
    destruct (body !! "repo_id") as [r|]; [|naive_solver].
    destruct (truthy (Some r)); simpl; naive_solver.
  - apply required2_None in E2. naive_solver.
Qed.

(** [transaction.status = s] touches no other field. *)
Lemma set_status_fields (s : Status) (t : Transaction) :
  status (set_status s t) = s
  ∧ transaction_id (set_status s t) = transaction_id t
  ∧ coordinator_id (set_status s t) = coordinator_id t
  ∧ repo_id (set_status s t) = repo_id t
  ∧ ref (set_status s t) = ref t
  ∧ commit (set_status s t) = commit t
  ∧ operation (set_status s t) = operation t
  ∧ timestamp (set_status s t) = timestamp t.
Proof. done. Qed.

Lemma set_status_idem (s : Status) (t : Transaction) :
  set_status s (set_status s t) = set_status s t.
Proof. done. Qed.

Lemma transactions_set_twice tid (t1 t2 : Transaction) this :
  transactions_set tid t2 (transactions_set tid t1 this)
  = transactions_set tid t2 this.
Proof. unfold transactions_set. simpl. by rewrite insert_insert_eq. Qed.

Lemma handleCommit_found this body tid cid (t : Transaction) :
  required2 body = Some (tid, cid) → transactions this !! tid = Some t →
  handleCommit this body
  = (accepted this committed tid,
     transactions_set tid (set_status committed t) this).
Proof. intros E2 Et. unfold handleCommit. by rewrite E2, Et. Qed.

Lemma handleAbort_found this body tid cid (t : Transaction) :
  required2 body = Some (tid, cid) → transactions this !! tid = Some t →
  handleAbort this body
  = (accepted this aborted tid,
     transactions_set tid (set_status aborted t) this).
Proof. intros E2 Et. unfold handleAbort. by rewrite E2, Et. Qed.

Context {FS : Type} `{NodeFs FS}.

(** A request that does not prepare [tid] creates no record for [tid]. *)
Lemma serve_keeps_unknown (r : Request) (s : ReplicationHandler * FS) tid :
  ¬ prepares tid r → transactions s.1 !! tid = None →
  transactions (serve r s).1 !! tid = None.
Proof.
  destruct s as [this d]. destruct r as [now body|body|body]; simpl; intros Hr Hn.
  - unfold handlePrepare.
    destruct (required3 body) as [[[t c] r]|] eqn:E3; [|done].
    apply required3_Some in E3 as (Ht & _).
    repeat case_match; simplify_eq/=; try done;
      (rewrite lookup_insert_ne; [done|]; intros ->; by apply Hr).
  - unfold handleCommit. repeat case_match; simplify_eq/=; try done;
      (rewrite lookup_insert_ne; [done|]; congruence).
  - unfold handleAbort. repeat case_match; simplify_eq/=; try done;
      (rewrite lookup_insert_ne; [done|]; congruence).
Qed.

Lemma serve_all_keeps_unknown (history : list Request)
    (s : ReplicationHandler * FS) tid :
  Forall (λ r, ¬ prepares tid r) history → transactions s.1 !! tid = None →
  transactions (serve_all history s).1 !! tid = None.
Proof.
  unfold serve_all. intros Hall. revert s.
  induction Hall as [|r history Hr _ IH]; intros s Hn; simpl; [done|].
  apply IH. by apply serve_keeps_unknown.
Qed.

(** What a prepare with its three fields comes to. *)
Lemma handlePrepare_valid this (now : string) body (d : FS) tid cid rid :
  required3 body = Some (tid, cid, rid) →
  let storageStep :=
    if bool_decide (body !! "operation" = Some "create") then
      if negb (repoExists (storage this) rid d)
      then createRepo (storage this) rid d
      else (inr (), d)
    else (inr (), d) in
  handlePrepare this now body d =
  match storageStep.1 with
  | inr _ =>
      (accepted this prepared tid,
       transactions_set tid
         {| transaction_id := tid; coordinator_id := cid; repo_id := rid;
            ref := body !! "ref"; commit := body !! "commit";
            operation := body !! "operation";
            timestamp := now; status := prepared |} this,
       storageStep.2)
  | inl message =>
      ({| statusCode := 500;
          json := [("error", JStr "Prepare failed");
                   ("details", JStr message)] |}, this, storageStep.2)
  end.
Proof.
  intros E3. cbv zeta. unfold handlePrepare. rewrite E3.
  by repeat case_match; simplify_eq/=.
Qed.

End HandlerLemmas.

(** ** Claims about the peer handler *)

Section HandlerClaims.

Import Handler.

Context {FS : Type} `{NodeFs FS}.

Implicit Types (this : ReplicationHandler) (body : JsonObject) (d : FS).
Implicit Types (tid cid rid now : string).

(** C3, as the code has it.  On a record that exists, commit sets the
    status to ['committed'] and abort sets it to ['aborted'], whatever the
    status was; no other field and no other record changes.  Applying the
    same operation again changes nothing more. *)
Theorem commit_abort_set_status this body tid cid (t : Transaction) :
  body !! "transaction_id" = Some tid → tid ≠ "" →
  body !! "coordinator_id" = Some cid → cid ≠ "" →
  transactions this !! tid = Some t →
  let afterCommit := (handleCommit this body).2 in
  let afterAbort := (handleAbort this body).2 in
  handleCommit this body = (accepted this committed tid, afterCommit)
  ∧ transactions afterCommit = <[tid := set_status committed t]> (transactions this)
  ∧ handleAbort this body = (accepted this aborted tid, afterAbort)
  ∧ transactions afterAbort = <[tid := set_status aborted t]> (transactions this)
  ∧ (handleCommit afterCommit body).2 = afterCommit
  ∧ (handleAbort afterAbort body).2 = afterAbort.
Proof.
  intros Ht Htne Hc Hcne Hlook afterCommit afterAbort.
  assert (required2 body = Some (tid, cid)) as E2 by by apply required2_Some.
  subst afterCommit afterAbort.
  rewrite (handleCommit_found this body tid cid t E2 Hlook).
  rewrite (handleAbort_found this body tid cid t E2 Hlook). simpl.
  split_and!; try done.
  - erewrite handleCommit_found; [|exact E2|by apply lookup_insert_eq].
    simpl. by rewrite transactions_set_twice, set_status_idem.
  - erewrite handleAbort_found; [|exact E2|by apply lookup_insert_eq].
    simpl. by rewrite transactions_set_twice, set_status_idem.
Qed.

(** C6.  On a node whose history holds no prepare of [tid], a commit of
    [tid] is answered 404 and an abort of [tid] is answered 200 with status
    ['aborted']; neither creates a record. *)
Theorem commit_unknown_fails_abort_succeeds (history : list Request)
    (serverId : string) (storage : RepoStorage) d body tid cid :
  body !! "transaction_id" = Some tid → tid ≠ "" →
  body !! "coordinator_id" = Some cid → cid ≠ "" →
  Forall (λ r, ¬ prepares tid r) history →
  let this := (serve_all history (newHandler serverId storage, d)).1 in
  handleCommit this body
    = ({| statusCode := 404;
          json := [("error", JStr ("Transaction not found: " +:+ tid))] |},
       this)
  ∧ handleAbort this body = (accepted this aborted tid, this)
  ∧ transactions this !! tid = None.
Proof.
  intros Ht Htne Hc Hcne Hhist this.
  assert (required2 body = Some (tid, cid)) as E2 by by apply required2_Some.
  assert (transactions this !! tid = None) as Hnone
    by by apply serve_all_keeps_unknown.
  unfold handleCommit, handleAbort. by rewrite E2, Hnone.
Qed.

(** C7.  A prepare is answered 400 exactly when one of [transaction_id],
    [coordinator_id], [repo_id] is missing, that is falsy: absent or the
    empty string.  Then the handler and the disk are as before.  A prepare
    answered 200 has stored a record with status ['prepared'] under its
    transaction id. *)
Theorem handlePrepare_validation this now body d :
  let r := handlePrepare this now body d in
  let missing :=
    truthy (body !! "transaction_id") = false
    ∨ truthy (body !! "coordinator_id") = false
    ∨ truthy (body !! "repo_id") = false in
  (statusCode r.1.1 = 400 ↔ missing)
  ∧ (missing →
       r = (missing_fields "transaction_id, coordinator_id, repo_id", this, d))
  ∧ (statusCode r.1.1 = 200 →
       ∃ tid t, body !! "transaction_id" = Some tid
                ∧ transactions r.1.2 !! tid = Some t
                ∧ transaction_id t = tid
                ∧ status t = prepared).
Proof.
  cbv zeta. destruct (required3 body) as [[[tid cid] rid]|] eqn:E3.
  - assert (¬ (truthy (body !! "transaction_id") = false
               ∨ truthy (body !! "coordinator_id") = false
               ∨ truthy (body !! "repo_id") = false)) as Hok.
    { intros Hm. apply required3_None in Hm. congruence. }
    rewrite (handlePrepare_valid this now body d tid cid rid E3). cbv zeta.
    apply required3_Some in E3 as (Ht & _).
    case_match; simpl.
    + split_and!;
        [split; [intros [=]|intros Hm; by destruct Hok]
        |intros Hm; by destruct Hok
        |intros [=]].
    + split_and!;
        [split; [intros [=]|intros Hm; by destruct Hok]
        |intros Hm; by destruct Hok|].
      intros _. eexists tid, _.
      split_and!; [done|by rewrite lookup_insert_eq|done|done].
  - assert (handlePrepare this now body d
            = (missing_fields "transaction_id, coordinator_id, repo_id", this, d))
      as -> by (unfold handlePrepare; by rewrite E3).
    apply required3_None in E3. simpl. split_and!; [done|done|done].
Qed.

(** C10.  A prepare that is accepted replaces whatever record the table
    holds under its transaction id, also a committed or an aborted one, by
    a fresh record: status ['prepared'], the time of this call, the fields
    of this request. *)
Theorem handlePrepare_replaces_record this now body d tid cid rid
    (old : Transaction) :
  body !! "transaction_id" = Some tid → tid ≠ "" →
  body !! "coordinator_id" = Some cid → cid ≠ "" →
  body !! "repo_id" = Some rid → rid ≠ "" →
  transactions this !! tid = Some old →
  let r := handlePrepare this now body d in
  statusCode r.1.1 = 200 →
  transactions r.1.2 =
    <[tid := {| transaction_id := tid; coordinator_id := cid; repo_id := rid;
                ref := body !! "ref"; commit := body !! "commit";
                operation := body !! "operation";
                timestamp := now; status := prepared |}]> (transactions this)
  ∧ dom (transactions r.1.2) = dom (transactions this).
Proof.
  intros Ht ? Hc ? Hr ? Hold.
  assert (required3 body = Some (tid, cid, rid)) as E3 by by apply required3_Some.
  cbv zeta. rewrite (handlePrepare_valid this now body d tid cid rid E3). cbv zeta.
  case_match; simpl; [done|]. intros _. split; [done|].
  rewrite dom_insert_L. apply elem_of_dom_2 in Hold. set_solver.
Qed.

Context `{!NodeFsLaws FS}.

Lemma createRepo_ok (st : RepoStorage) rid d (u : ()) (d1 : FS) :
  createRepo st rid d = (inr u, d1) →
  repoExists st rid d = false ∧ repoExists st rid d1 = true.
Proof.
  unfold createRepo. destruct (repoExists st rid d) eqn:Ex; [done|].
  destruct (fs_mkdir_recursive _ d) as [[e|[]] d0]; [done|].
  destruct u. intros Hinit. split; [done|].
  unfold repoExists. by eapply access_git_init.
Qed.

(** C8.  After a prepare that was accepted, the same request again is
    accepted again and leaves the disk as it is: when the operation is
    ['create'] the repository is found to exist, so [createRepo] is not
    called.  The table keeps one record under the transaction id. *)
Theorem handlePrepare_twice this now now' body d :
  let r1 := handlePrepare this now body d in
  statusCode r1.1.1 = 200 →
  let r2 := handlePrepare r1.1.2 now' body r1.2 in
  statusCode r2.1.1 = 200
  ∧ r2.2 = r1.2
  ∧ (body !! "operation" = Some "create" →
       ∃ rid, body !! "repo_id" = Some rid
              ∧ repoExists (storage this) rid r1.2 = true)
  ∧ dom (transactions r2.1.2) = dom (transactions r1.1.2).
Proof.
  cbv zeta. destruct (required3 body) as [[[tid cid] rid]|] eqn:E3.
  2:{ unfold handlePrepare at 1 2. by rewrite E3. }
  rewrite (handlePrepare_valid this now body d tid cid rid E3). cbv zeta.
  pose proof E3 as (_ & _ & _ & _ & Hrid & _)%required3_Some.
  destruct (bool_decide (body !! "operation" = Some "create")) eqn:Eop.
  - destruct (repoExists (storage this) rid d) eqn:Ex; simpl.
    + intros _.
      rewrite (handlePrepare_valid _ now' body d tid cid rid E3). cbv zeta.
      simpl. rewrite Eop, Ex. simpl. split_and!; [done|done|by eauto|].
      rewrite !dom_insert_L. set_solver.
    + destruct (createRepo (storage this) rid d) as [[e|u] d1] eqn:Ecreate;
        simpl; [done|]. intros _.
      apply createRepo_ok in Ecreate as [_ Ex1].
      rewrite (handlePrepare_valid _ now' body d1 tid cid rid E3). cbv zeta.
      simpl. rewrite Eop, Ex1. simpl. split_and!; [done|done|by eauto|].
      rewrite !dom_insert_L. set_solver.
  - simpl. intros _.
    rewrite (handlePrepare_valid _ now' body d tid cid rid E3). cbv zeta.
    simpl. rewrite Eop. simpl. split_and!; [done|done| |].
    + intros Hop. apply bool_decide_eq_false in Eop. done.
    + rewrite !dom_insert_L. set_solver.
Qed.

End HandlerClaims.

(** ** Claims about the server *)

Section ServerClaims.

Import Server.

Context {FS : Type} `{NodeFs FS} `{!NodeFsLaws FS}.

(** C9.  When the local create has succeeded and replication reports
    failure, the request is answered 500 and the disk is the one that
    [createRepo] left: nothing is undone, the repository exists. *)
Theorem handleCreateRepo_no_rollback (this : GitServer) (body : JsonObject)
    (d d1 : FS) (env : Env) (w : World) (repo_id : string)
    (coordinator : ReplicationCoordinator) :
  body !! "repo_id" = Some repo_id → repo_id ≠ "" →
  createRepo (storage this) repo_id d = (inr (), d1) →
  replicationCoordinator this = Some coordinator →
  let replication := replicateWrite coordinator (createWrite repo_id) env w in
  success replication.1 = false →
  handleCreateRepo this body d env w
    = (({| statusCode := 500;
           json := [("error", JStr "Replication failed");
                    ("details", of_option (error replication.1))] |}, d1),
       replication.2)
  ∧ repoExists (storage this) repo_id d1 = true.
Proof.
  intros Hbody Hne Hcreate Hcoord replication Hfail.
  destruct (createRepo_ok _ _ _ _ _ Hcreate) as [Hnew Hexists].
  split; [|done]. unfold handleCreateRepo.
  rewrite Hbody. apply truthy_Some in Hne. rewrite Hne. simpl.
  rewrite Hnew, Hcreate, Hcoord. unfold mbind, IO_bind.
  subst replication. destruct (replicateWrite _ _ env w) as [result w'].
  simpl in *. by rewrite Hfail.
Qed.

End ServerClaims.

(** ** The claims at concrete inputs *)

Section Runs.

Import Handler Fixtures.

(** C3, as the claim has it, fails: a committed transaction that is
    aborted is answered ['aborted'] and its record becomes ['aborted']. *)
Lemma abort_overwrites_committed :
  transactions committed1.1 !! "tx-0" = Some record1
  ∧ status record1 = committed
  ∧ (handleAbort committed1.1 commit1).1 = accepted committed1.1 aborted "tx-0"
  ∧ status <$> transactions (handleAbort committed1.1 commit1).2 !! "tx-0"
    = Some aborted.
Proof. split_and!; by vm_compute. Qed.

Lemma commit_abort_set_status_witness :
  transactions committed1.1 !! "tx-0" = Some record1
  ∧ transactions (handleAbort committed1.1 commit1).2
    = <["tx-0" := set_status aborted record1]> (transactions committed1.1)
  ∧ (handleCommit (handleCommit committed1.1 commit1).2 commit1).2
    = (handleCommit committed1.1 commit1).2.
Proof.
  assert (transactions committed1.1 !! "tx-0" = Some record1) as Hrec
    by (vm_compute; reflexivity).
  split; [exact Hrec|].
  destruct (commit_abort_set_status committed1.1 commit1 "tx-0" "server-1" record1)
    as (_ & _ & _ & Habort & Hcommit & _);
    [vm_compute; reflexivity | discriminate
    |vm_compute; reflexivity | discriminate | exact Hrec |].
  split; [exact Habort | exact Hcommit].
Defined.

Lemma commit_unknown_fails_abort_succeeds_witness :
  let history := [Prepare "2025-12-11T10:00:00.000Z" prepare2; Abort commit1] in
  let this := (serve_all history (handler0, (∅ : gset string))).1 in
  Forall (λ r, ¬ prepares "tx-0" r) history
  ∧ statusCode (handleCommit this commit1).1 = 404
  ∧ statusCode (handleAbort this commit1).1 = 200
  ∧ transactions (handleAbort this commit1).2 !! "tx-0" = None.
Proof.
  cbv zeta.
  assert (Forall (λ r, ¬ prepares "tx-0" r)
            [Prepare "2025-12-11T10:00:00.000Z" prepare2; Abort commit1]) as Hhist.
  { repeat constructor; simpl; [vm_compute; intros [=] | intros []]. }
  split; [exact Hhist|].
  destruct (commit_unknown_fails_abort_succeeds
              [Prepare "2025-12-11T10:00:00.000Z" prepare2; Abort commit1]
              "server-2" {| dataDir := "./data" |} (∅ : gset string)
              commit1 "tx-0" "server-1")
    as (Hcommit & Habort & Hnone);
    [vm_compute; reflexivity | discriminate
    |vm_compute; reflexivity | discriminate | exact Hhist |].
  change (newHandler "server-2" {| dataDir := "./data" |}) with handler0 in *.
  rewrite Hcommit, Habort. simpl. split_and!; [reflexivity|reflexivity|exact Hnone].
Defined.

Lemma handlePrepare_replaces_record_witness :
  let r := handlePrepare committed1.1 "2025-12-11T10:05:00.000Z" prepare1
             committed1.2 in
  transactions committed1.1 !! "tx-0" = Some record1
  ∧ statusCode r.1.1 = 200
  ∧ status <$> transactions r.1.2 !! "tx-0" = Some prepared
  ∧ timestamp <$> transactions r.1.2 !! "tx-0" = Some "2025-12-11T10:05:00.000Z".
Proof.
  cbv zeta.
  assert (transactions committed1.1 !! "tx-0" = Some record1) as Hrec
    by (vm_compute; reflexivity).
  assert (statusCode (handlePrepare committed1.1 "2025-12-11T10:05:00.000Z"
                        prepare1 committed1.2).1.1 = 200) as Hok
    by (vm_compute; reflexivity).
  split; [exact Hrec|]. split; [exact Hok|].
  destruct (handlePrepare_replaces_record committed1.1
              "2025-12-11T10:05:00.000Z" prepare1 committed1.2
              "tx-0" "server-1" "alice/proj" record1) as [Htable _];
    [vm_compute; reflexivity | discriminate
    |vm_compute; reflexivity | discriminate
    |vm_compute; reflexivity | discriminate
    |exact Hrec | exact Hok |].
  rewrite Htable, lookup_insert_eq. split; reflexivity.
Defined.

Lemma handlePrepare_twice_witness :
  let r1 := handlePrepare handler0 "2025-12-11T10:00:00.000Z" prepare1
              (∅ : gset string) in
  let r2 := handlePrepare r1.1.2 "2025-12-11T10:00:01.000Z" prepare1 r1.2 in
  statusCode r1.1.1 = 200
  ∧ statusCode r2.1.1 = 200
  ∧ r2.2 = r1.2.
Proof.
  cbv zeta.
  assert (statusCode (handlePrepare handler0 "2025-12-11T10:00:00.000Z" prepare1
                        (∅ : gset string)).1.1 = 200) as Hok
    by (vm_compute; reflexivity).
  split; [exact Hok|].
  destruct (handlePrepare_twice handler0 "2025-12-11T10:00:00.000Z"
              "2025-12-11T10:00:01.000Z" prepare1 (∅ : gset string) Hok)
    as (Hok2 & Hdisk & _).
  split; [exact Hok2 | exact Hdisk].
Defined.

Lemma handleCreateRepo_no_rollback_witness :
  let created := createRepo (Server.storage server1) "alice/proj" (∅ : gset string) in
  let replication :=
    replicateWrite (coordinator ["http://b"]) (Server.createWrite "alice/proj")
      all_down world0 in
  created.1 = inr ()
  ∧ success replication.1 = false
  ∧ statusCode (Server.handleCreateRepo server1 createBody ∅ all_down world0).1.1 = 500
  ∧ (Server.handleCreateRepo server1 createBody ∅ all_down world0).1.2 = created.2
  ∧ repoExists (Server.storage server1) "alice/proj" created.2 = true.
Proof.
  cbv zeta.
  assert (success (replicateWrite (coordinator ["http://b"])
                     (Server.createWrite "alice/proj") all_down world0).1 = false)
    as Hfail by (vm_compute; reflexivity).
  split; [vm_compute; reflexivity|]. split; [exact Hfail|].
  destruct (handleCreateRepo_no_rollback server1 createBody ∅
              (createRepo (Server.storage server1) "alice/proj" (∅ : gset string)).2
              all_down world0 "alice/proj" (coordinator ["http://b"]))
    as [Hrun Hexists];
    [vm_compute; reflexivity | discriminate | vm_compute; reflexivity
    |vm_compute; reflexivity | exact Hfail |].
  rewrite Hrun. simpl. split_and!; [reflexivity|reflexivity|exact Hexists].
Defined.

End Runs.

(** * Further properties of the code *)

(** ** The quorum and the result of a run *)

Section CoordinatorMore.

Implicit Types (this : ReplicationCoordinator) (writeData : JsonObject).
Implicit Types (env : Env) (w : World).

Lemma prepared_count_bounds (rs : list bool) :
  0 ≤ prepared_count rs ≤ Z.of_nat (length rs).
Proof.
  unfold prepared_count. pose proof (length_filter (λ r : bool, r = true) rs). lia.
Qed.

Lemma prepared_count_none (rs : list bool) :
  Forall (λ r, r = false) rs → prepared_count rs = 0.
Proof.
  unfold prepared_count. induction 1 as [|r rs -> _ IH]; [done|].
  by rewrite filter_cons_False.
Qed.

(** X1.  The coordinator and a quorum of peers are always at least half of the
    [N = 1 + peerUrls.length] servers; they are more than half exactly
    when [N] is odd or [N = 2]. *)
Theorem getQuorumSize_majority this :
  let N := 1 + Z.of_nat (length (peerUrls this)) in
  let q := getQuorumSize this in
  N ≤ 2 * (1 + q) ∧ (N < 2 * (1 + q) ↔ Z.odd N = true ∨ N = 2).
Proof.
  cbv zeta. rewrite getQuorumSize_eq. cbv zeta.
  set (N := 1 + Z.of_nat (length (peerUrls this))).
  assert (1 ≤ N) by lia. pose proof (Zmod_odd N) as Hodd.
  destruct (Z.eqb_spec N 2) as [->|Hne]; [split; [lia|]; split; [tauto|lia]|].
  destruct (Z.odd N); Z.div_mod_to_equations; split; try lia;
    split; intros; try lia; try tauto.
Qed.

Lemma getQuorumSize_zero this :
  getQuorumSize this = 0 ↔ peerUrls this = [].
Proof.
  rewrite getQuorumSize_eq. cbv zeta.
  destruct (peerUrls this) as [|p ps]; [done|]. simpl length.
  destruct (Z.eqb_spec (1 + Z.of_nat (S (length ps))) 2); [done|].
  split; [|done]. Z.div_mod_to_equations. lia.
Qed.

(** X2.  The quorum is zero exactly when there is no peer, and never more than
    the number of peers. *)
Theorem getQuorumSize_bounds this :
  0 ≤ getQuorumSize this ≤ Z.of_nat (length (peerUrls this))
  ∧ (getQuorumSize this = 0 ↔ peerUrls this = []).
Proof.
  split; [split; [apply getQuorumSize_nonneg|apply getQuorumSize_le_peers]|].
  apply getQuorumSize_zero.
Qed.

(** What the result of a run says, read off its closed form. *)
Lemma replicateWrite_result this writeData env w :
  let run := replicateWrite this writeData env w in
  let count := prepared_count (prepareOutcomes this writeData env w) in
  peersRequired run.1 = getQuorumSize this
  ∧ peersConfirmed run.1 = count
  ∧ success run.1 = negb (count <? getQuorumSize this)
  ∧ (error run.1 = None ↔ success run.1 = true)
  ∧ drawn run.2 = S (drawn w).
Proof.
  cbv zeta. rewrite replicateWrite_run. cbv zeta.
  by destruct (prepared_count (prepareOutcomes this writeData env w)
               <? getQuorumSize this).
Qed.

(** X3.  Adding peers never lowers the quorum. *)
Theorem getQuorumSize_mono this this' :
  (length (peerUrls this) ≤ length (peerUrls this'))%nat →
  getQuorumSize this ≤ getQuorumSize this'.
Proof.
  intros Hle. rewrite !getQuorumSize_eq. cbv zeta.
  destruct (Z.eqb_spec (1 + Z.of_nat (length (peerUrls this))) 2),
           (Z.eqb_spec (1 + Z.of_nat (length (peerUrls this'))) 2);
    Z.div_mod_to_equations; lia.
Qed.

Lemma getQuorumSize_mono_witness :
  (length (peerUrls (Fixtures.coordinator ["http://a"]))
   ≤ length (peerUrls (Fixtures.coordinator ["http://a"; "http://b"; "http://c"])))%nat
  ∧ getQuorumSize (Fixtures.coordinator ["http://a"])
    ≤ getQuorumSize (Fixtures.coordinator ["http://a"; "http://b"; "http://c"]).
Proof.
  split; [simpl; lia|].
  apply (getQuorumSize_mono (Fixtures.coordinator ["http://a"])
           (Fixtures.coordinator ["http://a"; "http://b"; "http://c"])).
  simpl. lia.
Defined.

(** X4.  The result of every run is consistent: [peersRequired] is the quorum,
    [peersConfirmed] counts the fulfilled prepares and lies between 0 and
    the number of peers, [success] says that the count reaches the quorum,
    and [error] is set exactly on failure.  The run draws one identifier. *)
Theorem replicateWrite_result_consistent this writeData env w :
  let run := replicateWrite this writeData env w in
  peersRequired run.1 = getQuorumSize this
  ∧ peersConfirmed run.1
    = prepared_count (prepareOutcomes this writeData env w)
  ∧ 0 ≤ peersConfirmed run.1 ≤ Z.of_nat (length (peerUrls this))
  ∧ (success run.1 = true ↔ peersRequired run.1 ≤ peersConfirmed run.1)
  ∧ (error run.1 = None ↔ success run.1 = true)
  ∧ drawn run.2 = S (drawn w).
Proof.
  cbv zeta.
  destruct (replicateWrite_result this writeData env w)
    as (-> & -> & Hs & He & Hd). cbv zeta in Hs.
  pose proof (prepared_count_bounds (prepareOutcomes this writeData env w)) as Hb.
  rewrite prepareOutcomes_length in Hb.
  split_and!; [done|done|lia|lia| |done|done].
  rewrite Hs, negb_true_iff, Z.ltb_ge. done.
Qed.

(** X5.  When every prepare is rejected, the count is 0 and the posts of the
    run are the prepares alone; the write succeeds only for a coordinator
    without peers. *)
Theorem replicateWrite_all_rejected this writeData env w :
  Forall (λ r, r = false) (prepareOutcomes this writeData env w) →
  let run := replicateWrite this writeData env w in
  peersConfirmed run.1 = 0
  ∧ (success run.1 = true ↔ peerUrls this = [])
  ∧ posts run.2 = posts w ++ prepareCalls this writeData env w.
Proof.
  intros Hall. cbv zeta. rewrite replicateWrite_run. cbv zeta.
  rewrite (prepared_count_none _ Hall).
  pose proof (getQuorumSize_nonneg this) as Hq0.
  pose proof (getQuorumSize_zero this) as Hq.
  destruct (Z.ltb_spec 0 (getQuorumSize this)); simpl.
  - split_and!; [done| |done]. split; [done|]. intros Hnil%Hq. lia.
  - assert (getQuorumSize this = 0) as Hzero by lia.
    apply Hq in Hzero. split_and!; [done|done|].
    unfold prepareOutcomes, prepareCalls. rewrite Hzero. simpl.
    by rewrite app_nil_r.
Qed.

Lemma replicateWrite_all_rejected_witness :
  let this := Fixtures.coordinator ["http://a"; "http://b"] in
  let run := replicateWrite this Fixtures.write1 Fixtures.all_down Fixtures.world0 in
  Forall (λ r, r = false)
    (prepareOutcomes this Fixtures.write1 Fixtures.all_down Fixtures.world0)
  ∧ peersConfirmed run.1 = 0
  ∧ success run.1 = false.
Proof.
  cbv zeta.
  assert (Forall (λ r, r = false)
            (prepareOutcomes (Fixtures.coordinator ["http://a"; "http://b"])
               Fixtures.write1 Fixtures.all_down Fixtures.world0)) as Hall
    by (repeat constructor).
  split; [exact Hall|].
  destruct (replicateWrite_all_rejected
              (Fixtures.coordinator ["http://a"; "http://b"])
              Fixtures.write1 Fixtures.all_down Fixtures.world0 Hall)
    as (Hcount & _ & _).
  split; [exact Hcount|reflexivity].
Defined.

(** X6.  A run issues one post per peer, and one more per confirmed peer when
    it succeeds. *)
Theorem replicateWrite_posts_count this writeData env w :
  let run := replicateWrite this writeData env w in
  Z.of_nat (length (posts run.2))
  = Z.of_nat (length (posts w)) + Z.of_nat (length (peerUrls this))
    + (if success run.1 then peersConfirmed run.1 else 0).
Proof.
  cbv zeta. rewrite replicateWrite_run. cbv zeta.
  pose proof (prepareOutcomes_length this writeData env w) as Hlen.
  destruct (Z.ltb_spec (prepared_count (prepareOutcomes this writeData env w))
              (getQuorumSize this)); simpl.
  - unfold prepareCalls. rewrite length_app, length_map. lia.
  - unfold prepareCalls. rewrite !length_app, !length_map.
    rewrite <- (prepared_peers_length (peerUrls this)) by done. lia.
Qed.

(** X7.  A run only appends to the posts, and each post it appends is the
    prepare or the commit of this transaction to a configured peer. *)
Theorem replicateWrite_posts_to_peers this writeData env w :
  let run := replicateWrite this writeData env w in
  let tx := transactionIdOf env w in
  ∃ added, posts run.2 = posts w ++ added
    ∧ ∀ c, c ∈ added →
        ∃ p, p ∈ peerUrls this
             ∧ (c = prepareCall this tx writeData p ∨ c = commitCall this tx p).
Proof.
  cbv zeta. rewrite replicateWrite_run. cbv zeta.
  assert (∀ c, c ∈ prepareCalls this writeData env w →
            ∃ p, p ∈ peerUrls this
                 ∧ (c = prepareCall this (transactionIdOf env w) writeData p
                    ∨ c = commitCall this (transactionIdOf env w) p)) as Hprep.
  { intros c (p & -> & Hp)%list_elem_of_fmap. eauto. }
  case_match; simpl; eexists; (split; [done|]); [done|].
  intros c [Hc|Hc]%elem_of_app; [by apply Hprep|].
  apply list_elem_of_fmap in Hc as (p & -> & Hp).
  apply prepared_peers_elem in Hp as (i & Hi & _).
  exists p. split; [by eapply list_elem_of_lookup_2|by right].
Qed.

End CoordinatorMore.

(** ** The coordinator's requests, served by a peer *)

Section CoordinatorToPeer.

Import Handler.

Context {FS : Type} `{NodeFs FS}.

Implicit Types (this : ReplicationHandler) (c : ReplicationCoordinator).
Implicit Types (writeData : JsonObject) (d : FS).

(** A field of the prepare body is the field of [writeData] when it has
    one, and else the generated [transaction_id] or the coordinator's
    [serverId]. *)
Lemma prepareBody_lookup c (tx : string) writeData (k : string) :
  prepareBody c tx writeData !! k =
  match writeData !! k with
  | Some v => Some v
  | None =>
      if decide (k = "transaction_id") then Some tx
      else if decide (k = "coordinator_id") then Some (Coordinator.serverId c)
      else None
  end.
Proof.
  unfold prepareBody. destruct (writeData !! k) as [v|] eqn:E.
  - by apply lookup_union_Some_l.
  - rewrite lookup_union_r by done.
    repeat case_decide; subst; by simplify_map_eq.
Qed.

Lemma commitBody_required c (tx : string) :
  tx ≠ "" → Coordinator.serverId c ≠ "" →
  required2 (commitBody c tx) = Some (tx, Coordinator.serverId c).
Proof.
  intros. apply required2_Some. unfold commitBody. by simplify_map_eq.
Qed.

(** X8.  A peer never rejects the coordinator's prepare as invalid when the
    write has a [repo_id] and no [transaction_id] or [coordinator_id] of
    its own; when the peer accepts it, the coordinator's commit of the same
    transaction is accepted too and leaves the record of the write,
    committed, under the transaction id. *)
Theorem peer_prepare_then_commit this c (tx now rid : string) writeData d :
  tx ≠ "" → Coordinator.serverId c ≠ "" →
  writeData !! "transaction_id" = None →
  writeData !! "coordinator_id" = None →
  writeData !! "repo_id" = Some rid → rid ≠ "" →
  let r1 := handlePrepare this now (prepareBody c tx writeData) d in
  statusCode r1.1.1 ≠ 400
  ∧ (statusCode r1.1.1 = 200 →
     let r2 := handleCommit r1.1.2 (commitBody c tx) in
     r2.1 = accepted this committed tx
     ∧ transactions r2.2 !! tx
       = Some {| transaction_id := tx;
                 coordinator_id := Coordinator.serverId c;
                 repo_id := rid;
                 ref := writeData !! "ref";
                 commit := writeData !! "commit";
                 operation := writeData !! "operation";
                 timestamp := now;
                 status := committed |}).
Proof.
  intros Htx Hsid Hnt Hnc Hrid Hridne.
  assert (required3 (prepareBody c tx writeData)
          = Some (tx, Coordinator.serverId c, rid)) as E3.
  { apply required3_Some. rewrite !prepareBody_lookup, Hnt, Hnc, Hrid. done. }
  cbv zeta. rewrite (handlePrepare_valid this now _ d _ _ _ E3). cbv zeta.
  case_match; simpl; [split; [done|intros [=]]|]. split; [done|]. intros _.
  erewrite handleCommit_found;
    [|by apply commitBody_required|by apply lookup_insert_eq].
  simpl. split; [done|]. rewrite lookup_insert_eq.
  assert (writeData !! "ref" = prepareBody c tx writeData !! "ref") as Hk1
    by (rewrite prepareBody_lookup; by destruct (writeData !! "ref")).
  assert (writeData !! "commit" = prepareBody c tx writeData !! "commit") as Hk2
    by (rewrite prepareBody_lookup; by destruct (writeData !! "commit")).
  assert (writeData !! "operation" = prepareBody c tx writeData !! "operation")
    as Hk3 by (rewrite prepareBody_lookup; by destruct (writeData !! "operation")).
  unfold set_status. simpl. by rewrite <- Hk1, <- Hk2, <- Hk3.
Qed.

(** X9.  A write that carries a [transaction_id] of its own overrides the
    generated one in the prepare body (the spread comes last), but not in
    the commit body: the peer records the transaction under the write's id,
    and the coordinator's commit is answered 404. *)
Theorem peer_prepare_id_overridden this c (tx now rid own : string)
    writeData d :
  tx ≠ "" → Coordinator.serverId c ≠ "" →
  writeData !! "transaction_id" = Some own → own ≠ "" → own ≠ tx →
  writeData !! "coordinator_id" = None →
  writeData !! "repo_id" = Some rid → rid ≠ "" →
  transactions this !! tx = None →
  let r1 := handlePrepare this now (prepareBody c tx writeData) d in
  statusCode r1.1.1 = 200 →
  is_Some (transactions r1.1.2 !! own)
  ∧ transactions r1.1.2 !! tx = None
  ∧ statusCode (handleCommit r1.1.2 (commitBody c tx)).1 = 404.
Proof.
  intros Htx Hsid Hown Hownne Hne Hnc Hrid Hridne Hnone.
  assert (required3 (prepareBody c tx writeData)
          = Some (own, Coordinator.serverId c, rid)) as E3.
  { apply required3_Some. rewrite !prepareBody_lookup, Hown, Hnc, Hrid. done. }
  cbv zeta. rewrite (handlePrepare_valid this now _ d _ _ _ E3). cbv zeta.
  case_match; simpl; [intros [=]|]. intros _.
  assert (<[own:={| transaction_id := own;
                    coordinator_id := Coordinator.serverId c;
                    repo_id := rid;
                    ref := prepareBody c tx writeData !! "ref";
                    commit := prepareBody c tx writeData !! "commit";
                    operation := prepareBody c tx writeData !! "operation";
                    timestamp := now;
                    status := prepared |}]> (transactions this) !! tx = None)
    as Hstill by by rewrite lookup_insert_ne.
  split_and!; [by rewrite lookup_insert_eq|done|].
  unfold handleCommit. rewrite commitBody_required by done. simpl.
  by rewrite Hstill.
Qed.

End CoordinatorToPeer.

(** ** The transaction table over a history of requests *)

Section HandlerMore.

Import Handler.

Context {FS : Type} `{NodeFs FS}.

Implicit Types (this : ReplicationHandler) (body : JsonObject) (d : FS).
Implicit Types (s : ReplicationHandler * FS) (r : Request).

(** What one request does to the table: nothing, or a prepare writes a
    fresh record under the id it names, or a commit or an abort rewrites
    the status of the record that is there. *)
Lemma serve_table r s :
  transactions (serve r s).1 = transactions s.1
  ∨ (∃ tid (t : Transaction),
       transactions (serve r s).1 = <[tid := t]> (transactions s.1)
       ∧ names tid r ∧ tid ≠ "" ∧ transaction_id t = tid
       ∧ coordinator_id t ≠ "" ∧ repo_id t ≠ "")
  ∨ (∃ tid (old : Transaction) (st : Status),
       transactions (serve r s).1
         = <[tid := set_status st old]> (transactions s.1)
       ∧ names tid r ∧ transactions s.1 !! tid = Some old).
Proof.
  destruct s as [this d]. destruct r as [now body|body|body]; simpl.
  - destruct (required3 body) as [[[tid cid] rid]|] eqn:E3.
    + rewrite (handlePrepare_valid this now body d tid cid rid E3). cbv zeta.
      apply required3_Some in E3 as (Ht & ? & _ & ? & _ & ?).
      match goal with
      | |- context [match ?step.1 with inl _ => _ | inr _ => _ end] =>
          destruct step.1
      end; simpl; [by left|]. right; left.
      eexists tid, _. by split_and!.
    + left. unfold handlePrepare. by rewrite E3.
  - unfold handleCommit.
    destruct (required2 body) as [[tid cid]|] eqn:E2; [|by left].
    apply required2_Some in E2 as (Ht & _).
    destruct (transactions this !! tid) as [old|] eqn:Eold; [|by left].
    right; right. by exists tid, old, committed.
  - unfold handleAbort.
    destruct (required2 body) as [[tid cid]|] eqn:E2; [|by left].
    apply required2_Some in E2 as (Ht & _).
    destruct (transactions this !! tid) as [old|] eqn:Eold; [|by left].
    right; right. by exists tid, old, aborted.
Qed.

(** X10.  Records are never deleted: over any history of requests the set of
    transaction ids in the table only grows, and so does
    [getTransactionCount()]. *)
Theorem records_never_deleted (history : list Request) s :
  dom (transactions s.1) ⊆ dom (transactions (serve_all history s).1)
  ∧ getTransactionCount s.1 ≤ getTransactionCount (serve_all history s).1.
Proof.
  assert (dom (transactions s.1) ⊆ dom (transactions (serve_all history s).1))
    as Hdom.
  { unfold serve_all. revert s.
    induction history as [|r history IH]; intros s; simpl; [done|].
    etrans; [|apply IH].
    destruct (serve_table r s) as [->|[(tid & t & -> & _)
                                      |(tid & old & st & -> & _)]];
      [done|rewrite dom_insert; set_solver..]. }
  split; [done|]. unfold getTransactionCount.
  apply subseteq_size in Hdom. rewrite !size_dom in Hdom. lia.
Qed.

(** X11.  A request leaves the records of all transactions but the one it names
    as they are. *)
Theorem serve_other_records_untouched r s (k : string) :
  ¬ names k r →
  transactions (serve r s).1 !! k = transactions s.1 !! k.
Proof.
  intros Hk.
  destruct (serve_table r s) as [->|[(tid & t & -> & Hn & _)
                                    |(tid & old & st & -> & Hn & _)]];
    [done|rewrite lookup_insert_ne; [done|by intros ->]..].
Qed.

(** X12.  Every record that a handler holds, after any history that started
    with an empty table, is stored under its own [transaction_id], and its
    [transaction_id], [coordinator_id] and [repo_id] are not empty. *)
Theorem records_well_formed (history : list Request) (serverId : string)
    (storage : RepoStorage) d (k : string) (t : Transaction) :
  transactions (serve_all history (newHandler serverId storage, d)).1 !! k
    = Some t →
  transaction_id t = k ∧ k ≠ ""
  ∧ coordinator_id t ≠ "" ∧ repo_id t ≠ "".
Proof.
  set (wf := λ s : ReplicationHandler * FS,
         ∀ k t, transactions s.1 !! k = Some t →
                transaction_id t = k ∧ k ≠ ""
                ∧ coordinator_id t ≠ "" ∧ repo_id t ≠ "").
  assert (∀ r s, wf s → wf (serve r s)) as Hstep.
  { intros r s Hwf k' t'.
    destruct (serve_table r s) as [->|[(tid & u & -> & _ & ? & ? & ? & ?)
                                      |(tid & old & st & -> & _ & Hold)]].
    - apply Hwf.
    - destruct (decide (tid = k')) as [->|Hne].
      + rewrite lookup_insert_eq. intros [= <-]. done.
      + rewrite lookup_insert_ne by done. apply Hwf.
    - destruct (decide (tid = k')) as [->|Hne].
      + rewrite lookup_insert_eq. intros [= <-]. by apply Hwf in Hold.
      + rewrite lookup_insert_ne by done. apply Hwf. }
  assert (∀ s, wf s → wf (serve_all history s)) as Hall.
  { unfold serve_all. induction history as [|r history IH]; intros s Hwf; simpl;
      [done|]. apply IH, Hstep, Hwf. }
  apply (Hall (newHandler serverId storage, d)).
  intros k' t'. simpl. by rewrite lookup_empty.
Qed.

(** X13.  Commit and abort answer 400 exactly when [transaction_id] or
    [coordinator_id] is missing (absent or empty), and then change
    nothing; abort answers nothing but 200 and 400; a commit answered 404
    changes nothing. *)
Theorem commit_abort_validation this body :
  let missing :=
    truthy (body !! "transaction_id") = false
    ∨ truthy (body !! "coordinator_id") = false in
  let rc := handleCommit this body in
  let ra := handleAbort this body in
  (statusCode rc.1 = 400 ↔ missing)
  ∧ (statusCode ra.1 = 400 ↔ missing)
  ∧ (missing →
       rc = (missing_fields "transaction_id, coordinator_id", this)
       ∧ ra = (missing_fields "transaction_id, coordinator_id", this))
  ∧ (statusCode ra.1 = 200 ↔ ¬ missing)
  ∧ (statusCode rc.1 = 404 → rc.2 = this)
  ∧ (statusCode rc.1 = 200 ∨ statusCode rc.1 = 400 ∨ statusCode rc.1 = 404).
Proof.
  cbv zeta. unfold handleCommit, handleAbort.
  destruct (required2 body) as [[tid cid]|] eqn:E2.
  - assert (¬ (truthy (body !! "transaction_id") = false
               ∨ truthy (body !! "coordinator_id") = false)) as Hok.
    { intros Hm%required2_None. congruence. }
    destruct (transactions this !! tid); simpl;
      (split_and!;
       [split; [intros [=]|intros Hm; by destruct Hok]
       |split; [intros [=]|intros Hm; by destruct Hok]
       |intros Hm; by destruct Hok
       |done
       |first [done|intros [=]]
       |first [by left|by right; right]]).
  - apply required2_None in E2. simpl.
    split_and!; [done|done|done| |intros [=]|by right; left].
    split; [intros [=]|intros Hn; by destruct Hn].
Qed.

(** X14.  Commit and abort never change [getTransactionCount()]; a prepare
    changes it only when it is accepted for an id that has no record, and
    then by one. *)
Theorem getTransactionCount_steps this (now : string) body d :
  let r := handlePrepare this now body d in
  getTransactionCount (handleCommit this body).2 = getTransactionCount this
  ∧ getTransactionCount (handleAbort this body).2 = getTransactionCount this
  ∧ (statusCode r.1.1 ≠ 200 →
       getTransactionCount r.1.2 = getTransactionCount this)
  ∧ (statusCode r.1.1 = 200 → ∀ tid, body !! "transaction_id" = Some tid →
       getTransactionCount r.1.2
       = getTransactionCount this
         + (if transactions this !! tid is Some _ then 0 else 1)).
Proof.
  cbv zeta. unfold getTransactionCount. split_and!.
  - unfold handleCommit. repeat case_match; simpl; try done.
    by erewrite map_size_insert_Some.
  - unfold handleAbort. repeat case_match; simpl; try done.
    by erewrite map_size_insert_Some.
  - destruct (required3 body) as [[[tid cid] rid]|] eqn:E3.
    + rewrite (handlePrepare_valid this now body d tid cid rid E3). cbv zeta.
      by case_match.
    + unfold handlePrepare. by rewrite E3.
  - destruct (required3 body) as [[[tid cid] rid]|] eqn:E3.
    + rewrite (handlePrepare_valid this now body d tid cid rid E3). cbv zeta.
      apply required3_Some in E3 as (Ht & _).
      case_match; simpl; [intros [=]|]. intros _ tid' Ht'.
      assert (tid' = tid) as -> by congruence.
      destruct (transactions this !! tid) eqn:E.
      * erewrite map_size_insert_Some by done. lia.
      * rewrite map_size_insert_None by done. lia.
    + unfold handlePrepare. rewrite E3. simpl. intros [=].
Qed.

(** X15.  After [clearTransactions()] the table is empty, so that no commit is
    accepted, whatever was prepared before, and an abort changes
    nothing. *)
Theorem clearTransactions_forgets this body :
  getTransactionCount (clearTransactions this) = 0
  ∧ statusCode (handleCommit (clearTransactions this) body).1 ≠ 200
  ∧ (handleAbort (clearTransactions this) body).2 = clearTransactions this.
Proof.
  split_and!; [done| |].
  - unfold handleCommit. destruct (required2 body) as [[tid cid]|]; simpl;
      [|intros [=]]. rewrite lookup_empty. simpl. intros [=].
  - unfold handleAbort. destruct (required2 body) as [[tid cid]|]; simpl;
      [|done]. by rewrite lookup_empty.
Qed.

(** X16.  A prepare answers 200, 400 or 500.  It answers 500 only when the
    operation is ['create'], the repository did not exist and
    [createRepo] threw; the answer then carries the message, and no record
    is stored. *)
Theorem handlePrepare_failure this (now : string) body d :
  let r := handlePrepare this now body d in
  (statusCode r.1.1 = 200 ∨ statusCode r.1.1 = 400 ∨ statusCode r.1.1 = 500)
  ∧ (statusCode r.1.1 = 500 →
       r.1.2 = this
       ∧ body !! "operation" = Some "create"
       ∧ ∃ rid message,
           body !! "repo_id" = Some rid
           ∧ repoExists (storage this) rid d = false
           ∧ createRepo (storage this) rid d = (inl message, r.2)
           ∧ json r.1.1 = [("error", JStr "Prepare failed");
                           ("details", JStr message)]).
Proof.
  cbv zeta. destruct (required3 body) as [[[tid cid] rid]|] eqn:E3.
  2:{ unfold handlePrepare. rewrite E3. simpl.
      split; [by right; left|intros [=]]. }
  rewrite (handlePrepare_valid this now body d tid cid rid E3). cbv zeta.
  apply required3_Some in E3 as (_ & _ & _ & _ & Hrid & _).
  destruct (bool_decide (body !! "operation" = Some "create")) eqn:Eop;
    [|simpl; split; [by left|intros [=]]].
  apply bool_decide_eq_true in Eop.
  destruct (repoExists (storage this) rid d) eqn:Ex; simpl;
    [split; [by left|intros [=]]|].
  destruct (createRepo (storage this) rid d) as [[message|u] d1] eqn:Ec; simpl;
    [|split; [by left|intros [=]]].
  split; [by right; right|]. intros _. split_and!; [done|done|].
  by exists rid, message.
Qed.

(** X17.  A prepare leaves the disk as it is unless its operation is ['create']
    and the repository does not exist yet; it is then not answered 500. *)
Theorem handlePrepare_disk_untouched this (now : string) body d :
  body !! "operation" ≠ Some "create"
  ∨ (∃ rid, body !! "repo_id" = Some rid
            ∧ repoExists (storage this) rid d = true) →
  (handlePrepare this now body d).2 = d
  ∧ statusCode (handlePrepare this now body d).1.1 ≠ 500.
Proof.
  intros Hcase. destruct (required3 body) as [[[tid cid] rid]|] eqn:E3.
  2:{ unfold handlePrepare. rewrite E3. simpl. split; [done|intros [=]]. }
  rewrite (handlePrepare_valid this now body d tid cid rid E3). cbv zeta.
  apply required3_Some in E3 as (_ & _ & _ & _ & Hrid & _).
  destruct Hcase as [Hop|(rid' & Hrid' & Hex)].
  - rewrite bool_decide_eq_false_2 by done. simpl. split; [done|intros [=]].
  - assert (rid' = rid) as -> by congruence. rewrite Hex.
    destruct (bool_decide (body !! "operation" = Some "create")); simpl;
      (split; [done|intros [=]]).
Qed.

End HandlerMore.

(** ** The storage *)

Section StorageMore.

Context {FS : Type} `{NodeFs FS} `{!NodeFsLaws FS}.

(** X18.  [createRepo] on a repository that exists throws ['Repository already
    exists'] and leaves the disk as it is; in particular a second
    [createRepo] after one that succeeded throws, and [repoExists] holds
    in between. *)
Theorem createRepo_twice (this : RepoStorage) (repoId : string) (d d1 : FS) :
  (repoExists this repoId d = true →
     createRepo this repoId d = (inl "Repository already exists", d))
  ∧ (createRepo this repoId d = (inr (), d1) →
     repoExists this repoId d1 = true
     ∧ createRepo this repoId d1 = (inl "Repository already exists", d1)).
Proof.
  assert (∀ d0 : FS, repoExists this repoId d0 = true →
            createRepo this repoId d0 = (inl "Repository already exists", d0))
    as Hexists by (intros d0 Hex; unfold createRepo; by rewrite Hex).
  split; [apply Hexists|].
  intros [_ Hex]%createRepo_ok. split; [done|by apply Hexists].
Qed.

End StorageMore.

(** ** Listing the repositories *)

Section ListingMore.

Import Listing.

Implicit Types (dir entry : Dirent) (entries : list (string * Dirent)).
Implicit Types (prefix name : string) (repos : list string).

Lemma string_length_app (a b : string) :
  String.length (a +:+ b) = (String.length a + String.length b)%nat.
Proof. induction a as [|c a IH]; simpl; [done|]. by rewrite IH. Qed.

Lemma substring_all (b : string) : String.substring 0 (String.length b) b = b.
Proof. induction b as [|c b IH]; simpl; [done|]. by rewrite IH. Qed.

Lemma substring_app_suffix (a b : string) :
  String.substring (String.length a) (String.length b) (a +:+ b) = b.
Proof. induction a as [|c a IH]; simpl; [apply substring_all|done]. Qed.

Lemma substring_app_prefix (a b : string) :
  String.substring 0 (String.length a) (a +:+ b) = a.
Proof.
  induction a as [|c a IH]; simpl; [by destruct b|]. by rewrite IH.
Qed.

(** [(name + '.git').endsWith('.git')], and what [slice(0, -4)] leaves. *)
Lemma endsWith_git name : endsWith (name +:+ ".git") ".git" = true.
Proof.
  unfold endsWith. rewrite string_length_app.
  replace (String.length name + String.length ".git" - String.length ".git")%nat
    with (String.length name) by lia.
  rewrite substring_app_suffix, String.eqb_refl, andb_true_r.
  apply bool_decide_eq_true. lia.
Qed.

Lemma slice_end_git name : slice_end 4 (name +:+ ".git") = name.
Proof.
  unfold slice_end. rewrite string_length_app.
  replace (String.length name + String.length ".git" - 4)%nat
    with (String.length name) by (simpl; lia).
  apply substring_app_prefix.
Qed.

Lemma under_empty name : under "" name = name.
Proof. done. Qed.

Lemma under_owner prefix name :
  prefix ≠ "" → under prefix name = prefix +:+ "/" +:+ name.
Proof. intros Hne. unfold under. by apply String.eqb_neq in Hne as ->. Qed.

(** One turn of the loop over the entries. *)
Lemma scanDirectory_cons name entry entries prefix repos :
  scanDirectory (Directory (Some ((name, entry) :: entries))) prefix repos =
  if isDirectory entry then
    if endsWith name ".git" then
      scanDirectory (Directory (Some entries)) prefix
        (repos ++ [under prefix (slice_end 4 name)])
    else
      match scanDirectory entry (under prefix name) repos with
      | Some repos' => scanDirectory (Directory (Some entries)) prefix repos'
      | None => None
      end
  else scanDirectory (Directory (Some entries)) prefix repos.
Proof. done. Qed.

Lemma scanDirectory_repositories (names : list string) prefix repos
    (inside : string → option (list (string * Dirent))) :
  scanDirectory
    (Directory (Some (map (λ name, (name +:+ ".git", Directory (inside name)))
                          names))) prefix repos
  = Some (repos ++ map (under prefix) names).
Proof.
  revert repos. induction names as [|name names IH]; intros repos.
  - simpl. by rewrite app_nil_r.
  - rewrite fmap_cons, scanDirectory_cons. simpl isDirectory. cbv iota.
    rewrite endsWith_git, slice_end_git, IH. by rewrite <- app_assoc.
Qed.

(** X19.  In a data directory laid out as [owner/name.git], with owners whose
    name does not end in [.git], [listRepos()] returns the ids
    [owner/name], in the order of the directory entries, whatever the
    repositories hold. *)
Theorem listRepos_layout (owners : list (string * list string))
    (inside : string → string → option (list (string * Dirent))) :
  Forall (λ o, o.1 ≠ "" ∧ endsWith o.1 ".git" = false) owners →
  listRepos (layout owners inside)
  = flat_map (λ o, map (λ name, o.1 +:+ "/" +:+ name) o.2) owners.
Proof.
  intros Hown. unfold listRepos, layout.
  assert (∀ repos,
    scanDirectory
      (Directory (Some
        (map (λ '(owner, names),
                (owner,
                 Directory (Some
                   (map (λ name, (name +:+ ".git", Directory (inside owner name)))
                        names))))
             owners))) "" repos
    = Some (repos ++ flat_map (λ o, map (λ name, o.1 +:+ "/" +:+ name) o.2) owners))
    as ->; [|done].
  induction Hown as [|[owner names] owners [Hne Hgit] _ IH]; intros repos.
  - simpl. by rewrite app_nil_r.
  - rewrite fmap_cons, scanDirectory_cons. simpl isDirectory. cbv iota.
    simpl in Hne, Hgit. rewrite Hgit, under_empty.
    rewrite (scanDirectory_repositories names owner repos (inside owner)).
    rewrite IH. simpl. rewrite <- app_assoc. do 3 f_equal.
    apply map_ext. intros name. by apply under_owner.
Qed.

Lemma scanDirectory_rejects dir :
  scan_rejects dir → ∀ prefix repos, scanDirectory dir prefix repos = None.
Proof.
  induction 1 as [| |entries name entry Hin Hdir Hgit _ IH]; [done|done|].
  induction entries as [|[name' entry'] entries IHe]; intros prefix repos.
  - by apply elem_of_nil in Hin.
  - rewrite scanDirectory_cons.
    apply elem_of_cons in Hin as [[= <- <-]|Hin].
    + by rewrite Hdir, Hgit, IH.
    + destruct (isDirectory entry'); [|by apply IHe].
      destruct (endsWith name' ".git"); [by apply IHe|].
      destruct (scanDirectory entry' _ repos); [by apply IHe|done].
Qed.

(** X20.  When a [readdir] of the scan rejects, at whatever depth,
    [listRepos()] returns the empty list: the repositories found before
    are dropped. *)
Theorem listRepos_rejected dir : scan_rejects dir → listRepos dir = [].
Proof.
  intros Hrej. unfold listRepos. by rewrite scanDirectory_rejects.
Qed.

(** X21.  The scan never looks into a directory whose name ends in [.git], and
    it skips what is not a directory: the listing is the same whatever
    such a directory holds, and with or without such an entry. *)
Theorem listRepos_ignores (before after : list (string * Dirent)) name
    (listing listing' : option (list (string * Dirent))) :
  (endsWith name ".git" = true →
     listRepos (Directory (Some (before ++ (name, Directory listing) :: after)))
     = listRepos (Directory (Some (before ++ (name, Directory listing') :: after))))
  ∧ listRepos (Directory (Some (before ++ (name, File) :: after)))
    = listRepos (Directory (Some (before ++ after))).
Proof.
  unfold listRepos. split.
  - intros Hgit.
    assert (∀ prefix repos,
      scanDirectory (Directory (Some (before ++ (name, Directory listing) :: after)))
        prefix repos
      = scanDirectory (Directory (Some (before ++ (name, Directory listing') :: after)))
          prefix repos) as ->; [|done].
    induction before as [|[name' entry'] before IH]; intros prefix repos; simpl app.
    + rewrite !scanDirectory_cons. simpl isDirectory. cbv iota. by rewrite Hgit.
    + rewrite !scanDirectory_cons. rewrite !IH.
      by destruct (scanDirectory entry' _ repos); [rewrite IH|].
  - assert (∀ prefix repos,
      scanDirectory (Directory (Some (before ++ (name, File) :: after))) prefix repos
      = scanDirectory (Directory (Some (before ++ after))) prefix repos) as ->;
      [|done].
    induction before as [|[name' entry'] before IH]; intros prefix repos; simpl app.
    + by rewrite scanDirectory_cons.
    + rewrite !scanDirectory_cons. rewrite !IH.
      by destruct (scanDirectory entry' _ repos); [rewrite IH|].
Qed.

End ListingMore.

(** ** Creating and reading repositories through the server *)

Section ServerMore.

Import Server.

Context {FS : Type} `{NodeFs FS}.

Implicit Types (this : GitServer) (body : JsonObject) (d : FS).
Implicit Types (env : Env) (w : World).

(** The six ways in which [handleCreateRepo] ends. *)
Lemma handleCreateRepo_cases this body d env w :
  let r := handleCreateRepo this body d env w in
  (truthy (body !! "repo_id") = false
   ∧ r = (({| statusCode := 400;
              json := [("error", JStr "Missing repo_id")] |}, d), w))
  ∨ ∃ repo_id, body !! "repo_id" = Some repo_id ∧ repo_id ≠ "" ∧
    ((repoExists (storage this) repo_id d = true
      ∧ r = (({| statusCode := 409;
                 json := [("error", JStr "Repository already exists")] |}, d), w))
     ∨ repoExists (storage this) repo_id d = false ∧
       ((∃ message d1,
           createRepo (storage this) repo_id d = (inl message, d1)
           ∧ r = (({| statusCode := 500;
                      json := [("error", JStr "Failed to create repository");
                               ("details", JStr message)] |}, d1), w))
        ∨ ∃ d1, createRepo (storage this) repo_id d = (inr (), d1) ∧
          ((replicationCoordinator this = None
            ∧ r = (({| statusCode := 201;
                       json := [("repo_id", JStr repo_id);
                                ("created", JBool true);
                                ("replicated", JBool false);
                                ("peers_confirmed", JNum 0)] |}, d1), w))
           ∨ ∃ coordinator, replicationCoordinator this = Some coordinator ∧
             let replication :=
               replicateWrite coordinator (createWrite repo_id) env w in
             ((success replication.1 = false
               ∧ r = (({| statusCode := 500;
                          json := [("error", JStr "Replication failed");
                                   ("details",
                                    of_option (error replication.1))] |}, d1),
                      replication.2))
              ∨ (success replication.1 = true
                 ∧ r = (({| statusCode := 201;
                            json := [("repo_id", JStr repo_id);
                                     ("created", JBool true);
                                     ("replicated", JBool true);
                                     ("peers_confirmed",
                                      JNum (peersConfirmed replication.1))] |},
                         d1),
                        replication.2)))))).
Proof.
  cbv zeta. unfold handleCreateRepo.
  destruct (body !! "repo_id") as [repo_id|] eqn:Hbody; [|by left].
  destruct (truthy (Some repo_id)) eqn:Htruthy; simpl; [|by left].
  apply truthy_Some in Htruthy. right. exists repo_id. split_and!; [done|done|].
  destruct (repoExists (storage this) repo_id d) eqn:Hex; [by left|].
  right. split; [done|].
  destruct (createRepo (storage this) repo_id d) as [[message|[]] d1] eqn:Hcreate;
    [left; by exists message, d1|].
  right. exists d1. split; [done|].
  destruct (replicationCoordinator this) as [coordinator|]; [|by left].
  right. exists coordinator. split; [done|].
  unfold mbind, IO_bind.
  destruct (replicateWrite coordinator (createWrite repo_id) env w)
    as [[[] confirmed required err] w'] eqn:Hrun; simpl; [by right|by left].
Qed.

(** X22.  A create is answered 400 exactly when [repo_id] is missing, and 409
    exactly when the repository exists; in both cases the disk is
    untouched and nothing is posted.  The other answers are 201 and
    500. *)
Theorem handleCreateRepo_rejections this body d env w :
  let r := handleCreateRepo this body d env w in
  (statusCode r.1.1 = 400 ↔ truthy (body !! "repo_id") = false)
  ∧ (statusCode r.1.1 = 409 ↔
       ∃ repo_id, body !! "repo_id" = Some repo_id ∧ repo_id ≠ ""
                  ∧ repoExists (storage this) repo_id d = true)
  ∧ (statusCode r.1.1 = 400 ∨ statusCode r.1.1 = 409 → r.1.2 = d ∧ r.2 = w)
  ∧ (statusCode r.1.1 = 201 ∨ statusCode r.1.1 = 400
     ∨ statusCode r.1.1 = 409 ∨ statusCode r.1.1 = 500).
Proof.
  cbv zeta.
  destruct (handleCreateRepo_cases this body d env w)
    as [[Hm ->]
       |(repo_id & Hbody & Hne &
          [[Hex ->]
          |[Hex [(message & d1 & Hc & ->)
                |(d1 & Hc & [[Hco ->]
                            |(c & Hco & [[Hs ->]|[Hs ->]])])]]])]; simpl.
  - split_and!; [done| |done|by right; left].
    split; [intros [=]|]. intros (rid & Hb & Hn & _).
    rewrite Hb in Hm. apply truthy_Some in Hn. congruence.
  - assert (truthy (body !! "repo_id") = true) as Ht
      by (rewrite Hbody; by apply truthy_Some).
    split_and!; [split; [intros [=]|congruence]| |done|by right; right; left].
    split; [intros _; by exists repo_id|done].
  - assert (truthy (body !! "repo_id") = true) as Ht
      by (rewrite Hbody; by apply truthy_Some).
    split_and!; [split; [intros [=]|congruence]| |intros [[=]|[=]]
                |by right; right; right].
    split; [intros [=]|]. intros (rid & Hb & _ & Hex'). congruence.
  - assert (truthy (body !! "repo_id") = true) as Ht
      by (rewrite Hbody; by apply truthy_Some).
    split_and!; [split; [intros [=]|congruence]| |intros [[=]|[=]]|by left].
    split; [intros [=]|]. intros (rid & Hb & _ & Hex'). congruence.
  - assert (truthy (body !! "repo_id") = true) as Ht
      by (rewrite Hbody; by apply truthy_Some).
    split_and!; [split; [intros [=]|congruence]| |intros [[=]|[=]]
                |by right; right; right].
    split; [intros [=]|]. intros (rid & Hb & _ & Hex'). congruence.
  - assert (truthy (body !! "repo_id") = true) as Ht
      by (rewrite Hbody; by apply truthy_Some).
    split_and!; [split; [intros [=]|congruence]| |intros [[=]|[=]]|by left].
    split; [intros [=]|]. intros (rid & Hb & _ & Hex'). congruence.
Qed.

(** X23.  A server without peers never posts anything: a create that it
    answers 201 reports [replicated: false] and no confirmed peer. *)
Theorem handleCreateRepo_without_peers (dataDir serverId : string) body d env w :
  let this := newGitServer dataDir serverId [] in
  let r := handleCreateRepo this body d env w in
  r.2 = w
  ∧ (statusCode r.1.1 = 201 →
       ∃ repo_id, body !! "repo_id" = Some repo_id
         ∧ json r.1.1 = [("repo_id", JStr repo_id);
                         ("created", JBool true);
                         ("replicated", JBool false);
                         ("peers_confirmed", JNum 0)]).
Proof.
  cbv zeta.
  destruct (handleCreateRepo_cases (newGitServer dataDir serverId []) body d env w)
    as [[Hm ->]
       |(repo_id & Hbody & Hne &
          [[Hex ->]
          |[Hex [(message & d1 & Hc & ->)
                |(d1 & Hc & [[Hco ->]
                            |(c & Hco & _)])]]])]; simpl;
    try (split; [done|intros [=]]); [by eauto|done].
Qed.

(** X24.  A server with peers answers a create 201 only when at least one peer
    has confirmed the prepare: the answer reports [replicated: true] and
    a count of confirmed peers between 1 and the number of peers. *)
Theorem handleCreateRepo_created_means_confirmed (dataDir serverId : string)
    (peers : list string) body d env w :
  peers ≠ [] →
  let this := newGitServer dataDir serverId peers in
  let r := handleCreateRepo this body d env w in
  statusCode r.1.1 = 201 →
  ∃ repo_id n, body !! "repo_id" = Some repo_id
    ∧ json r.1.1 = [("repo_id", JStr repo_id);
                    ("created", JBool true);
                    ("replicated", JBool true);
                    ("peers_confirmed", JNum n)]
    ∧ 1 ≤ n ≤ Z.of_nat (length peers).
Proof.
  intros Hpeers. cbv zeta.
  assert (replicationCoordinator (newGitServer dataDir serverId peers)
          = Some {| Coordinator.serverId := serverId;
                    Coordinator.peerUrls := peers |}) as Hcoord.
  { unfold newGitServer. simpl. destruct peers; [done|]. done. }
  destruct (handleCreateRepo_cases (newGitServer dataDir serverId peers) body d env w)
    as [[Hm ->]
       |(repo_id & Hbody & Hne &
          [[Hex ->]
          |[Hex [(message & d1 & Hc & ->)
                |(d1 & Hc & [[Hco ->]
                            |(c & Hco & [[Hs ->]|[Hs ->]])])]]])]; simpl;
    try (intros Hst; discriminate Hst);
    try (rewrite Hcoord in Hco; discriminate Hco).
  intros _. exists repo_id, (peersConfirmed
    (replicateWrite c (createWrite repo_id) env w).1).
  split_and!; [done|done| |].
  - destruct (replicateWrite_result c (createWrite repo_id) env w)
      as (_ & -> & Hiff & _). cbv zeta in Hiff.
    rewrite Hiff, negb_true_iff, Z.ltb_ge in Hs.
    pose proof (getQuorumSize_zero c) as Hzero.
    assert (peerUrls c ≠ []) by (rewrite Hcoord in Hco; by simplify_eq).
    pose proof (getQuorumSize_nonneg c).
    destruct (decide (getQuorumSize c = 0)) as [Hz|]; [by apply Hzero in Hz|lia].
  - destruct (replicateWrite_result c (createWrite repo_id) env w)
      as (_ & -> & _).
    pose proof (prepared_count_bounds
                  (prepareOutcomes c (createWrite repo_id) env w)) as Hb.
    rewrite prepareOutcomes_length in Hb.
    rewrite Hcoord in Hco. simplify_eq. simpl in Hb. lia.
Qed.

Context `{!NodeFsLaws FS}.

(** X25.  Once a create has made the repository, whether it was answered 201
    or 500 for a failed replication, the same create again is answered
    409, changes nothing and posts nothing. *)
Theorem handleCreateRepo_retry this body d env w env' w' :
  let r1 := handleCreateRepo this body d env w in
  statusCode r1.1.1 = 201
  ∨ (∃ details, json r1.1.1 = [("error", JStr "Replication failed");
                               ("details", details)]) →
  let r2 := handleCreateRepo this body r1.1.2 env' w' in
  r2 = (({| statusCode := 409;
            json := [("error", JStr "Repository already exists")] |}, r1.1.2),
        w').
Proof.
  cbv zeta.
  assert (∀ repo_id d1, body !! "repo_id" = Some repo_id → repo_id ≠ "" →
            createRepo (storage this) repo_id d = (inr (), d1) →
            handleCreateRepo this body d1 env' w'
            = (({| statusCode := 409;
                   json := [("error", JStr "Repository already exists")] |}, d1),
               w')) as Hagain.
  { intros repo_id d1 Hbody Hne [_ Hex]%createRepo_ok.
    unfold handleCreateRepo. rewrite Hbody.
    apply truthy_Some in Hne. by rewrite Hne, Hex. }
  destruct (handleCreateRepo_cases this body d env w)
    as [[Hm ->]
       |(repo_id & Hbody & Hne &
          [[Hex ->]
          |[Hex [(message & d1 & Hc & ->)
                |(d1 & Hc & [[Hco ->]
                            |(c & Hco & [[Hs ->]|[Hs ->]])])]]])]; simpl;
    intros [Hst|[details Hj]]; try discriminate; by eapply Hagain.
Qed.

(** X26.  A repository that a create has been answered 201 for is found by
    [GET /repos/:user/:repo], with its path; one that does not exist is
    answered 404. *)
Theorem handleGetRepo_after_create this body d env w (user repo : string) :
  (repoExists (storage this) (user +:+ "/" +:+ repo) d = false →
     handleGetRepo this user repo d
     = {| statusCode := 404;
          json := [("repo_id", JStr (user +:+ "/" +:+ repo));
                   ("exists", JBool false)] |})
  ∧ (body !! "repo_id" = Some (user +:+ "/" +:+ repo) →
     statusCode (handleCreateRepo this body d env w).1.1 = 201 →
     handleGetRepo this user repo (handleCreateRepo this body d env w).1.2
     = {| statusCode := 200;
          json := [("repo_id", JStr (user +:+ "/" +:+ repo));
                   ("exists", JBool true);
                   ("path",
                    JStr (getRepoPath (storage this) (user +:+ "/" +:+ repo)))] |}).
Proof.
  split.
  - intros Hex. unfold handleGetRepo. by rewrite Hex.
  - intros Hbody.
    destruct (handleCreateRepo_cases this body d env w)
      as [[Hm ->]
         |(repo_id & Hbody' & Hne &
            [[Hex ->]
            |[Hex [(message & d1 & Hc & ->)
                  |(d1 & Hc & [[Hco ->]
                              |(c & Hco & [[Hs ->]|[Hs ->]])])]]])]; simpl;
      try (intros Hst; discriminate Hst); intros _;
      (assert (repo_id = user +:+ "/" +:+ repo) as -> by congruence);
      apply createRepo_ok in Hc as [_ Hex1];
      unfold handleGetRepo; by rewrite Hex1.
Qed.

End ServerMore.

(** ** The further properties at concrete inputs *)

Section MoreRuns.

Import Handler Fixtures MoreFixtures.

Lemma peer_prepare_then_commit_witness :
  let c := coordinator ["http://b"] in
  let writeData := Server.createWrite "alice/proj" in
  writeData !! "transaction_id" = None
  ∧ writeData !! "coordinator_id" = None
  ∧ writeData !! "repo_id" = Some "alice/proj"
  ∧ statusCode (handlePrepare handler0 "2025-12-11T10:00:00.000Z"
                  (prepareBody c "tx-0" writeData) (∅ : gset string)).1.1 ≠ 400.
Proof.
  cbv zeta. split_and!; [vm_compute; reflexivity..|].
  apply (peer_prepare_then_commit handler0 (coordinator ["http://b"]) "tx-0"
           "2025-12-11T10:00:00.000Z" "alice/proj"
           (Server.createWrite "alice/proj") (∅ : gset string));
    [discriminate | discriminate | vm_compute; reflexivity
    |vm_compute; reflexivity | vm_compute; reflexivity | discriminate].
Defined.

Lemma peer_prepare_id_overridden_witness :
  let c := coordinator ["http://b"] in
  let r1 := handlePrepare handler0 "2025-12-11T10:00:00.000Z"
              (prepareBody c "tx-0" write_with_id) (∅ : gset string) in
  write_with_id !! "transaction_id" = Some "mine"
  ∧ statusCode r1.1.1 = 200
  ∧ is_Some (transactions r1.1.2 !! "mine")
  ∧ statusCode (handleCommit r1.1.2 (commitBody c "tx-0")).1 = 404.
Proof.
  cbv zeta.
  assert (statusCode (handlePrepare handler0 "2025-12-11T10:00:00.000Z"
                        (prepareBody (coordinator ["http://b"]) "tx-0" write_with_id)
                        (∅ : gset string)).1.1 = 200) as Hok
    by (vm_compute; reflexivity).
  split; [vm_compute; reflexivity|]. split; [exact Hok|].
  destruct (peer_prepare_id_overridden handler0 (coordinator ["http://b"]) "tx-0"
              "2025-12-11T10:00:00.000Z" "alice/proj" "mine" write_with_id
              (∅ : gset string)) as (Hown & _ & Hcommit);
    [discriminate | discriminate | vm_compute; reflexivity | discriminate
    |discriminate | vm_compute; reflexivity | vm_compute; reflexivity
    |discriminate | vm_compute; reflexivity | exact Hok |].
  split; [exact Hown | exact Hcommit].
Defined.

Lemma serve_other_records_untouched_witness :
  let r := Prepare "2025-12-11T10:05:00.000Z" prepare2 in
  ¬ names "tx-0" r
  ∧ transactions (serve r committed1).1 !! "tx-0" = Some record1.
Proof.
  cbv zeta.
  assert (¬ names "tx-0" (Prepare "2025-12-11T10:05:00.000Z" prepare2)) as Hn
    by (vm_compute; intros [=]).
  split; [exact Hn|].
  rewrite (serve_other_records_untouched
             (Prepare "2025-12-11T10:05:00.000Z" prepare2) committed1 "tx-0" Hn).
  vm_compute. reflexivity.
Defined.

Lemma records_well_formed_witness :
  let history := [Prepare "2025-12-11T10:00:00.000Z" prepare1; Commit commit1] in
  transactions
    (serve_all history (newHandler "server-2" {| dataDir := "./data" |},
                        (∅ : gset string))).1 !! "tx-0" = Some record1
  ∧ transaction_id record1 = "tx-0"
  ∧ coordinator_id record1 ≠ "".
Proof.
  cbv zeta.
  assert (transactions
            (serve_all [Prepare "2025-12-11T10:00:00.000Z" prepare1; Commit commit1]
               (newHandler "server-2" {| dataDir := "./data" |},
                (∅ : gset string))).1 !! "tx-0" = Some record1) as Hrec
    by (vm_compute; reflexivity).
  split; [exact Hrec|].
  destruct (records_well_formed _ _ _ _ _ _ Hrec) as (Hid & _ & Hcid & _).
  split; [exact Hid | exact Hcid].
Defined.

Lemma handlePrepare_disk_untouched_witness :
  let body := prepareBody (coordinator ["http://b"]) "tx-0" write1 in
  body !! "operation" ≠ Some "create"
  ∧ (handlePrepare handler0 "2025-12-11T10:00:00.000Z" body
       ({["./data/other.git"]} : gset string)).2 = {["./data/other.git"]}.
Proof.
  cbv zeta.
  assert (prepareBody (coordinator ["http://b"]) "tx-0" write1 !! "operation"
          ≠ Some "create") as Hop by (vm_compute; intros [=]).
  split; [exact Hop|].
  exact (proj1 (handlePrepare_disk_untouched handler0 "2025-12-11T10:00:00.000Z"
                  (prepareBody (coordinator ["http://b"]) "tx-0" write1)
                  ({["./data/other.git"]} : gset string) (or_introl Hop))).
Defined.

Lemma createRepo_twice_witness :
  let this := {| dataDir := "./data" |} in
  let first := createRepo this "alice/proj" (∅ : gset string) in
  first.1 = inr ()
  ∧ createRepo this "alice/proj" first.2
    = (inl "Repository already exists", first.2).
Proof.
  cbv zeta. split; [vm_compute; reflexivity|].
  apply (createRepo_twice {| dataDir := "./data" |} "alice/proj" (∅ : gset string)).
  vm_compute. reflexivity.
Defined.

Lemma listRepos_layout_witness :
  let owners := [("alice", ["proj"; "lib"]); ("bob", ["x"])] in
  Forall (λ o : string * list string,
            o.1 ≠ "" ∧ Listing.endsWith o.1 ".git" = false) owners
  ∧ Listing.listRepos (Listing.layout owners bare)
    = ["alice/proj"; "alice/lib"; "bob/x"].
Proof.
  cbv zeta.
  assert (Forall (λ o : string * list string,
                    o.1 ≠ "" ∧ Listing.endsWith o.1 ".git" = false)
            [("alice", ["proj"; "lib"]); ("bob", ["x"])]) as Hown
    by (repeat constructor; discriminate).
  split; [exact Hown|].
  rewrite (listRepos_layout _ bare Hown). reflexivity.
Defined.

Lemma listRepos_rejected_witness :
  Listing.scan_rejects tree_unreadable
  ∧ Listing.listRepos tree_unreadable = [].
Proof.
  assert (Listing.scan_rejects tree_unreadable) as Hrej.
  { apply (Listing.rejects_below _ "bob" (Listing.Directory None));
      [set_solver | reflexivity | reflexivity | constructor]. }
  split; [exact Hrej | exact (listRepos_rejected _ Hrej)].
Defined.

Lemma handleCreateRepo_created_means_confirmed_witness :
  ["http://b"] ≠ ([] : list string)
  ∧ statusCode (Server.handleCreateRepo server1 createBody (∅ : gset string)
                  all_up world0).1.1 = 201
  ∧ ∃ repo_id n,
      createBody !! "repo_id" = Some repo_id
      ∧ json (Server.handleCreateRepo server1 createBody (∅ : gset string)
                all_up world0).1.1
        = [("repo_id", JStr repo_id); ("created", JBool true);
           ("replicated", JBool true); ("peers_confirmed", JNum n)]
      ∧ 1 ≤ n ≤ Z.of_nat (length ["http://b"]).
Proof.
  assert (["http://b"] ≠ ([] : list string)) as Hpeers by discriminate.
  assert (statusCode (Server.handleCreateRepo server1 createBody (∅ : gset string)
                        all_up world0).1.1 = 201) as Hok
    by (vm_compute; reflexivity).
  split; [exact Hpeers|]. split; [exact Hok|].
  exact (handleCreateRepo_created_means_confirmed "./data" "server-1"
           ["http://b"] createBody (∅ : gset string) all_up world0 Hpeers Hok).
Defined.

Lemma handleCreateRepo_retry_witness :
  let r1 := Server.handleCreateRepo server1 createBody (∅ : gset string)
              all_down world0 in
  statusCode r1.1.1 = 500
  ∧ json r1.1.1 = [("error", JStr "Replication failed");
                   ("details",
                    JStr "Quorum not reached. Required: 1, Got: 0")]
  ∧ statusCode (Server.handleCreateRepo server1 createBody r1.1.2
                  all_up r1.2).1.1 = 409.
Proof.
  cbv zeta.
  assert (json (Server.handleCreateRepo server1 createBody (∅ : gset string)
                  all_down world0).1.1
          = [("error", JStr "Replication failed");
             ("details", JStr "Quorum not reached. Required: 1, Got: 0")]) as Hj
    by (vm_compute; reflexivity).
  split; [vm_compute; reflexivity|]. split; [exact Hj|].
  rewrite (handleCreateRepo_retry server1 createBody (∅ : gset string)
             all_down world0 all_up
             (Server.handleCreateRepo server1 createBody (∅ : gset string)
                all_down world0).2
             (or_intror (ex_intro _ _ Hj))).
  reflexivity.
Defined.

Lemma handleGetRepo_after_create_witness :
  createBody !! "repo_id" = Some ("alice" +:+ "/" +:+ "proj")
  ∧ statusCode (Server.handleCreateRepo server_alone createBody (∅ : gset string)
                  all_up world0).1.1 = 201
  ∧ statusCode (Server.handleGetRepo server_alone "alice" "proj"
                  (Server.handleCreateRepo server_alone createBody
                     (∅ : gset string) all_up world0).1.2) = 200.
Proof.
  assert (createBody !! "repo_id" = Some ("alice" +:+ "/" +:+ "proj")) as Hbody
    by (vm_compute; reflexivity).
  assert (statusCode (Server.handleCreateRepo server_alone createBody
                        (∅ : gset string) all_up world0).1.1 = 201) as Hok
    by (vm_compute; reflexivity).
  split; [exact Hbody|]. split; [exact Hok|].
  rewrite (proj2 (handleGetRepo_after_create server_alone createBody
                    (∅ : gset string) all_up world0 "alice" "proj") Hbody Hok).
  reflexivity.
Defined.

End MoreRuns.
